(** * meterclock: the meter-update code of the VU-meter clock (src/main.cpp)

    A shallow embedding of the sketch: the globals and function-local statics
    become one [state] record, the hardware (the millisecond counter and the
    DS1307 clock chip) becomes a [board] of readings, and every function of
    main.cpp becomes a computation in a small state monad over them. *)

From Stdlib Require Import ZArith List Bool Lia QArith Qround.
Import ListNotations.
Open Scope Z_scope.

(** ** Machine integers of the ATmega328p *)

Module Word.

(** [byte] is an unsigned 8-bit integer. *)
Definition to_byte (z : Z) : Z := z mod 256.

(** [unsigned long] is an unsigned 32-bit integer. *)
Definition to_ulong (z : Z) : Z := z mod 2 ^ 32.

(** [long] is a signed 32-bit integer (two's complement). *)
Definition to_long (z : Z) : Z := (z + 2 ^ 31) mod 2 ^ 32 - 2 ^ 31.

Definition is_byte (z : Z) : Prop := 0 <= z <= 255.

End Word.
Import Word.

(** ** Constants and calibration tables *)

Definition VU_SEC_PIN : Z := 11.
Definition VU_MIN_PIN : Z := 10.
Definition VU_HOUR_PIN : Z := 9.

Definition hourVals : list Z :=
  [0; 22; 44; 67; 92; 117; 142; 166; 189; 212; 233; 255].

Definition minuteVals : list Z :=
  [0;   4;   9;   13;  17;  20;  24;  29;  33;  37;  41;  45;  49;  53;  57;
   62;  66;  71;  75;  79;  83;  87;  92;  96;  100; 105; 109; 114; 118; 123;
   127; 131; 136; 140; 144; 149; 153; 157; 162; 166; 170; 175; 179; 184; 188;
   193; 198; 202; 206; 210; 214; 219; 223; 227; 231; 235; 240; 244; 248; 251].

(** [pgm_read_byte(&tbl[i])].  An index outside the table reads whatever
    follows it in flash; that is outside this model, which answers 0. *)
Definition pgm_read_byte (tbl : list Z) (i : Z) : Z :=
  if i <? 0 then 0 else nth (Z.to_nat i) tbl 0.

(** ** RTClib's DateTime, as far as the sketch uses it *)

Record DateTime := mkDateTime {
  year : Z; month : Z; day : Z;
  hour : Z; minute : Z; second : Z
}.

(** The default constructor gives 2000-01-01 00:00:00. *)
Definition DateTime_default : DateTime := mkDateTime 2000 1 1 0 0 0.

(** ** The hardware and the program state *)

(** What the board answers: the k-th reading of [millis()], whether the RTC
    answers on the bus, whether its oscillator runs, and the k-th reading of
    [rtc.now()]. *)
Record board := mkBoard {
  clock : nat -> Z;
  rtc_found : bool;
  rtc_running : bool;
  rtc_time : nat -> DateTime
}.

Record state := mkState {
  reads : nat;                    (* calls of millis() so far *)
  polls : nat;                    (* calls of rtc.now() so far *)
  pwm : list (Z * Z);             (* analogWrite(pin, value) calls, oldest first *)
  rtc_set : option DateTime;      (* last rtc.adjust(), if any *)
  lastSecond : Z;                 (* global *)
  curTime : DateTime;             (* global *)
  displayTime_sec : Z;            (* static byte sec  in displayTime *)
  displayTime_min : Z;            (* static byte min  in displayTime *)
  displayTime_hour : Z;           (* static byte hour in displayTime *)
  lastUpdate_init : bool;         (* guard of the static below *)
  lastUpdate : Z                  (* static unsigned long lastUpdate in updateMeter *)
}.

Definition power_on : state :=
  mkState 0 0 [] None 0 DateTime_default 0 0 0 false 0.

Definition set_reads (n : nat) (s : state) : state :=
  mkState n (polls s) (pwm s) (rtc_set s) (lastSecond s) (curTime s)
          (displayTime_sec s) (displayTime_min s) (displayTime_hour s)
          (lastUpdate_init s) (lastUpdate s).

Definition set_polls (n : nat) (s : state) : state :=
  mkState (reads s) n (pwm s) (rtc_set s) (lastSecond s) (curTime s)
          (displayTime_sec s) (displayTime_min s) (displayTime_hour s)
          (lastUpdate_init s) (lastUpdate s).

Definition set_pwm (l : list (Z * Z)) (s : state) : state :=
  mkState (reads s) (polls s) l (rtc_set s) (lastSecond s) (curTime s)
          (displayTime_sec s) (displayTime_min s) (displayTime_hour s)
          (lastUpdate_init s) (lastUpdate s).

Definition set_rtc_set (d : option DateTime) (s : state) : state :=
  mkState (reads s) (polls s) (pwm s) d (lastSecond s) (curTime s)
          (displayTime_sec s) (displayTime_min s) (displayTime_hour s)
          (lastUpdate_init s) (lastUpdate s).

Definition set_lastSecond (t : Z) (s : state) : state :=
  mkState (reads s) (polls s) (pwm s) (rtc_set s) t (curTime s)
          (displayTime_sec s) (displayTime_min s) (displayTime_hour s)
          (lastUpdate_init s) (lastUpdate s).

Definition set_curTime (d : DateTime) (s : state) : state :=
  mkState (reads s) (polls s) (pwm s) (rtc_set s) (lastSecond s) d
          (displayTime_sec s) (displayTime_min s) (displayTime_hour s)
          (lastUpdate_init s) (lastUpdate s).

Definition set_lastUpdate (t : Z) (s : state) : state :=
  mkState (reads s) (polls s) (pwm s) (rtc_set s) (lastSecond s) (curTime s)
          (displayTime_sec s) (displayTime_min s) (displayTime_hour s)
          true t.

(** The three meters.  [updateMeter] receives its first argument by
    reference; the reference is one of the three statics of [displayTime]. *)
Inductive gauge := SecGauge | MinGauge | HourGauge.

Definition level (g : gauge) (s : state) : Z :=
  match g with
  | SecGauge => displayTime_sec s
  | MinGauge => displayTime_min s
  | HourGauge => displayTime_hour s
  end.

Definition set_level (g : gauge) (v : Z) (s : state) : state :=
  match g with
  | SecGauge =>
      mkState (reads s) (polls s) (pwm s) (rtc_set s) (lastSecond s) (curTime s)
              v (displayTime_min s) (displayTime_hour s)
              (lastUpdate_init s) (lastUpdate s)
  | MinGauge =>
      mkState (reads s) (polls s) (pwm s) (rtc_set s) (lastSecond s) (curTime s)
              (displayTime_sec s) v (displayTime_hour s)
              (lastUpdate_init s) (lastUpdate s)
  | HourGauge =>
      mkState (reads s) (polls s) (pwm s) (rtc_set s) (lastSecond s) (curTime s)
              (displayTime_sec s) (displayTime_min s) v
              (lastUpdate_init s) (lastUpdate s)
  end.

(** ** A state monad for the sketch *)

Definition M (A : Type) : Type := board -> state -> A * state.

Definition ret {A} (a : A) : M A := fun _ s => (a, s).

Definition bind {A B} (m : M A) (k : A -> M B) : M B :=
  fun b s => let (a, s') := m b s in k a b s'.

Notation "x <- m ;; k" := (bind m (fun x => k))
  (at level 61, m at next level, right associativity).
Notation "m ;; k" := (bind m (fun _ => k))
  (at level 61, right associativity).

Definition gets {A} (f : state -> A) : M A := fun _ s => (f s, s).
Definition modify (f : state -> state) : M unit := fun _ s => (tt, f s).
Definition when (c : bool) (m : M unit) : M unit := if c then m else ret tt.

(** The state a computation leaves behind. *)
Definition exec {A} (m : M A) (b : board) (s : state) : state := snd (m b s).

Fixpoint for_each {A} (l : list A) (body : A -> M unit) : M unit :=
  match l with
  | [] => ret tt
  | x :: l' => body x ;; for_each l' body
  end.

(** ** Arduino core and RTClib calls *)

Definition millis : M Z :=
  fun b s => (to_ulong (clock b (reads s)), set_reads (S (reads s)) s).

Definition analogWrite (pin val : Z) : M unit :=
  modify (fun s => set_pwm (pwm s ++ [(pin, val)]) s).

(** [pinMode] and [delay] leave the modelled state alone; the time a delay
    takes shows in the later readings of [clock]. *)
Definition pinMode_OUTPUT (pin : Z) : M unit := ret tt.
Definition delay (ms : Z) : M unit := ret tt.

(** Arduino core, WMath.cpp:
    [long map(long x, long in_min, long in_max, long out_min, long out_max)
     { return (x - in_min) * (out_max - out_min) / (in_max - in_min) + out_min; }]
    in 32-bit signed arithmetic; C's [/] truncates toward zero. *)
Definition map (x in_min in_max out_min out_max : Z) : Z :=
  to_long
    (to_long (Z.quot (to_long (to_long (x - in_min) * to_long (out_max - out_min)))
                     (to_long (in_max - in_min)))
     + out_min).

Definition rtc_begin : M bool := fun b s => (rtc_found b, s).
Definition rtc_isrunning : M bool := fun b s => (rtc_running b, s).
Definition rtc_now : M DateTime :=
  fun b s => (rtc_time b (polls s), set_polls (S (polls s)) s).
Definition rtc_adjust (d : DateTime) : M unit := modify (set_rtc_set (Some d)).

(** ** updateMeter *)

Definition updateInterval : Z := 100.
Definition sweepLength : Z := 750.

(** [byte interval = 255 / (sweepLength / (float)updateInterval);]
    Both quotients, 7.5 and 34, are exact in binary floating point, so the
    rational computation below is the float one; the conversion to [byte]
    truncates. *)
Definition interval : Z :=
  to_byte (Qfloor (inject_Z 255 / (inject_Z sweepLength / inject_Z updateInterval))).

(** [static unsigned long lastUpdate = millis();] runs the first time control
    passes the declaration. *)
Definition lastUpdate_static : M unit :=
  ready <- gets lastUpdate_init ;;
  if ready then ret tt
  else (t <- millis ;; modify (set_lastUpdate t)).

Definition updateMeter (curVal : gauge) (targetVal VU_PIN : Z) : M unit :=
  lastUpdate_static ;;
  c <- gets (level curVal) ;;
  when (negb (c =? targetVal))
    (c <- gets (level curVal) ;;
     when (targetVal >? c) (modify (set_level curVal targetVal)) ;;
     c <- gets (level curVal) ;;
     when (targetVal <? c)
       (if interval >? c then
          modify (set_level curVal 0)
        else
          now <- millis ;;
          last <- gets lastUpdate ;;
          when (to_ulong (now - last) >? updateInterval)
            (modify (set_level curVal (to_byte (c - interval))) ;;
             t <- millis ;;
             modify (set_lastUpdate t))) ;;
     c <- gets (level curVal) ;;
     analogWrite VU_PIN c).

(** ** testMeter *)

(** [for (byte i = 0; i < 255; i++)] visits 0..254 and
    [for (byte i = 255; i > 0; i--)] visits 255..1. *)
Definition testMeter (pin : Z) : M unit :=
  for_each (List.map Z.of_nat (seq 0 255))
           (fun i => analogWrite pin i ;; delay 3) ;;
  delay 5 ;;
  for_each (rev (List.map Z.of_nat (seq 1 255)))
           (fun i => analogWrite pin i ;; delay 3).

(** ** getRTCTime *)

Definition getRTCTime : M unit :=
  oldSec <- gets (fun s => second (curTime s)) ;;
  t <- rtc_now ;;
  modify (set_curTime t) ;;
  newSec <- gets (fun s => second (curTime s)) ;;
  when (oldSec <? newSec)
    (t <- millis ;; modify (set_lastSecond t)).

(** ** displayTime *)

(** [(curTime.hour() == 0 || curTime.hour() == 12) ? 12 : curTime.hour() % 12],
    stored in a [byte]. *)
Definition hour12 (h24 : Z) : Z :=
  to_byte (if (h24 =? 0) || (h24 =? 12) then 12 else Z.rem h24 12).

(** [(curTime.second() * 1000UL) + (unsigned long)(millis() - lastSecond)] *)
Definition curSecMillis (sec now anchor : Z) : Z :=
  to_ulong (to_ulong (sec * 1000) + to_ulong (now - anchor)).

(** [newSec = map(curSecMillis, 0, 60000, 0, 255)]: the argument is converted
    to [long], the result to [byte]. *)
Definition secLevel (ms : Z) : Z :=
  to_byte (map (to_long ms) 0 60000 0 255).

Definition displayTime : M unit :=
  getRTCTime ;;
  t <- gets curTime ;;
  let h := hour12 (hour t) in
  now <- millis ;;
  anchor <- gets lastSecond ;;
  let newSec := secLevel (curSecMillis (second t) now anchor) in
  let newMin := to_byte (pgm_read_byte minuteVals (minute t)) in
  let newHour := to_byte (pgm_read_byte hourVals (h - 1)) in
  updateMeter SecGauge newSec VU_SEC_PIN ;;
  updateMeter MinGauge newMin VU_MIN_PIN ;;
  updateMeter HourGauge newHour VU_HOUR_PIN.

(** ** setup, loop and the Arduino main program *)

(** [setup] either returns or stays in [while (1) {}] for ever. *)
Inductive outcome := Returned | Hung.

Definition setup : M outcome :=
  pinMode_OUTPUT VU_SEC_PIN ;;
  analogWrite VU_SEC_PIN 0 ;;
  pinMode_OUTPUT VU_MIN_PIN ;;
  analogWrite VU_MIN_PIN 0 ;;
  pinMode_OUTPUT VU_HOUR_PIN ;;
  analogWrite VU_HOUR_PIN 0 ;;
  found <- rtc_begin ;;
  if negb found then
    analogWrite VU_SEC_PIN 128 ;;
    analogWrite VU_MIN_PIN 128 ;;
    analogWrite VU_HOUR_PIN 128 ;;
    ret Hung
  else
    running <- rtc_isrunning ;;
    when (negb running) (rtc_adjust (mkDateTime 2020 1 1 0 0 0)) ;;
    testMeter VU_HOUR_PIN ;;
    testMeter VU_MIN_PIN ;;
    testMeter VU_SEC_PIN ;;
    ret Returned.

Definition loop : M unit := displayTime.

(** Arduino's [main] calls [setup()] once and then [loop()] for ever.  One
    [step] is one of these calls; a machine that hangs in [setup] stays where
    it is. *)
Inductive phase := Booting | Halted | Looping.

Record machine := mkMachine { stage : phase; mem : state }.

Definition reset : machine := mkMachine Booting power_on.

Definition step (b : board) (m : machine) : machine :=
  match stage m with
  | Booting =>
      match setup b (mem m) with
      | (Returned, s) => mkMachine Looping s
      | (Hung, s) => mkMachine Halted s
      end
  | Halted => m
  | Looping => mkMachine Looping (exec loop b (mem m))
  end.

Fixpoint run (b : board) (n : nat) (m : machine) : machine :=
  match n with
  | O => m
  | S n' => run b n' (step b m)
  end.

(** The level a pin was last set to, if it was ever written. *)
Fixpoint last_write (pin : Z) (log : list (Z * Z)) : option Z :=
  match log with
  | [] => None
  | (p, v) :: log' =>
      match last_write pin log' with
      | Some v' => Some v'
      | None => if p =? pin then Some v else None
      end
  end.

(** ** Repeated updates of one meter towards one target *)

Fixpoint updates (n : nat) (g : gauge) (targetVal VU_PIN : Z)
         (b : board) (s : state) : state :=
  match n with
  | O => s
  | S n' => updates n' g targetVal VU_PIN b (exec (updateMeter g targetVal VU_PIN) b s)
  end.

(** The state in which the body of [updateMeter] starts: the static has been
    initialised if this is the first call. *)
Definition armed (b : board) (s : state) : state :=
  if lastUpdate_init s then s
  else set_lastUpdate (to_ulong (clock b (reads s))) (set_reads (S (reads s)) s).

(** What [(unsigned long)(millis() - lastUpdate)] evaluates to in the next
    call of [updateMeter], should that call get as far as the test. *)
Definition elapsed (b : board) (s : state) : Z :=
  to_ulong (to_ulong (clock b (reads (armed b s))) - lastUpdate (armed b s)).

(** A board that is read slowly enough: from now on every reading of
    [millis()] is more than [updateInterval] after the one before it, and the
    next call finds more than [updateInterval] elapsed. *)
Definition paced (b : board) (s : state) : Prop :=
  (forall k, (reads s <= k)%nat ->
             updateInterval < to_ulong (clock b (S k) - clock b k)) /\
  updateInterval < elapsed b s.

(** The first [n] calls of a run of updates each find more than
    [updateInterval] elapsed since the last downward step. *)
Definition spaced (n : nat) (b : board) (s : state) (g : gauge) (T pin : Z) : Prop :=
  forall i, (i < n)%nat -> updateInterval < elapsed b (updates i g T pin b s).

(** What one update does to a falling needle when the rate limit lets it move. *)
Definition lowered (c : Z) : Z := if c <? interval then 0 else c - interval.

(** The time stamp [updateMeter] consults when it drives meter [g]: the one
    static [lastUpdate] of the function, whichever meter is passed. *)
Definition sweep_stamp (g : gauge) (s : state) : Z * bool :=
  (lastUpdate s, lastUpdate_init s).

(** ** The spec's reading of the second-hand mapping *)

(** The spec's wording for the mapping, "rounding toward nearest integer":
    [num / den] rounded to the nearest integer, halves upward. *)
Definition round_nearest (num den : Z) : Z := (2 * num + den) / (2 * den).

Definition secLevel_rounded (e : Z) : Z := round_nearest (e * 255) 60000.

(** ** The spec's readings of the falling needle *)

(** "Repeated update calls decrease current monotonically until current == T
    or current == 0": as long as neither value has been reached, the next
    update does not raise the level. *)
Definition falls_until_target_or_zero
           (b : board) (s : state) (g : gauge) (T pin : Z) : Prop :=
  forall n,
    (forall i, (i <= n)%nat ->
               level g (updates i g T pin b s) <> T /\
               level g (updates i g T pin b s) <> 0) ->
    level g (updates (S n) g T pin b s) <= level g (updates n g T pin b s).

(** "It changes by at most one step size per rate-limit interval when
    decreasing": whatever number of updates fits between two readings of
    [millis()] no more than [updateInterval] apart lowers the level by at
    most [interval]. *)
Definition one_step_per_interval
           (b : board) (s : state) (g : gauge) (T pin : Z) : Prop :=
  forall n,
    clock b (reads (updates n g T pin b s)) - clock b (reads s) <= updateInterval ->
    level g s - level g (updates n g T pin b s) <= interval.

(** "An update call for one gauge leaves every other gauge's needle state
    (level and last-sweep-update timestamp) unchanged." *)
Definition needle_state_per_gauge
           (b : board) (s : state) (g : gauge) (T pin : Z) : Prop :=
  forall g', g' <> g ->
    level g' (exec (updateMeter g T pin) b s) = level g' s /\
    sweep_stamp g' (exec (updateMeter g T pin) b s) = sweep_stamp g' s.

(** ** Boards and states for worked examples *)

(** A board whose k-th reading of [millis()] is [t0 + dt * k]. *)
Definition bench_board (t0 dt : Z) (found : bool) (t : DateTime) : board :=
  mkBoard (fun k => t0 + dt * Z.of_nat k) found true (fun _ => t).

(** Meter [g] stands at [c]; the last downward step was at time [last]. *)
Definition needle_at (g : gauge) (c last : Z) : state :=
  set_lastUpdate last (set_level g c power_on).

(** What [setup] writes when the clock chip is missing. *)
Definition diagnostic_writes : list (Z * Z) :=
  [(VU_SEC_PIN, 0); (VU_MIN_PIN, 0); (VU_HOUR_PIN, 0);
   (VU_SEC_PIN, 128); (VU_MIN_PIN, 128); (VU_HOUR_PIN, 128)].

(** ** The display cycle, taken apart *)

(** The pin [displayTime] passes along with each meter. *)
Definition pin_of (g : gauge) : Z :=
  match g with
  | SecGauge => VU_SEC_PIN
  | MinGauge => VU_MIN_PIN
  | HourGauge => VU_HOUR_PIN
  end.

(** The state of [displayTime] when it starts updating the meters: the clock
    chip has been polled and [millis()] read for the second hand. *)
Definition polled (b : board) (s : state) : state :=
  let s0 := exec getRTCTime b s in
  set_reads (S (reads s0)) s0.

(** The target [displayTime] computes for each meter. *)
Definition target (g : gauge) (b : board) (s : state) : Z :=
  let s0 := exec getRTCTime b s in
  let t := curTime s0 in
  match g with
  | SecGauge =>
      secLevel (curSecMillis (second t) (to_ulong (clock b (reads s0))) (lastSecond s0))
  | MinGauge => to_byte (pgm_read_byte minuteVals (minute t))
  | HourGauge => to_byte (pgm_read_byte hourVals (hour12 (hour t) - 1))
  end.

(** The pin of meter [g] carries the level the program holds for it. *)
Definition in_sync (g : gauge) (s : state) : Prop :=
  last_write (pin_of g) (pwm s) = Some (level g s).

(** ** The start-up sweep, as a list *)

(** The values [testMeter] writes, in order. *)
Definition sweep_values : list Z :=
  List.map Z.of_nat (seq 0 255) ++ rev (List.map Z.of_nat (seq 1 255)).

(** Neighbouring values of a list differ by exactly one. *)
Fixpoint smooth (l : list Z) : bool :=
  match l with
  | x :: (y :: _) as l' => (Z.abs (y - x) =? 1) && smooth l'
  | _ => true
  end.


(** ** What the whole run keeps *)

(** Every write so far went to one of the three meter pins with a value from
    0 to 255, and every level the program holds is in that range. *)
Definition well_driven (s : state) : Prop :=
  Forall (fun w => In (fst w) [VU_SEC_PIN; VU_MIN_PIN; VU_HOUR_PIN] /\
                   is_byte (snd w)) (pwm s) /\
  forall g, is_byte (level g s).

(** ** The branches of one call of updateMeter *)

Inductive branch (b : board) (s : state) (g : gauge) (T : Z) : Set :=
| Idle : level g s = T -> branch b s g T
| Rise : level g s < T -> branch b s g T
| Clamp : T < level g s -> level g s < interval -> branch b s g T
| Step : T < level g s -> interval <= level g s ->
         updateInterval < elapsed b s -> branch b s g T
| Hold : T < level g s -> interval <= level g s ->
         elapsed b s <= updateInterval -> branch b s g T.

(** * Properties *)

(** ** Machine arithmetic *)

Lemma to_byte_small z : 0 <= z <= 255 -> to_byte z = z.
Proof. intros H. unfold to_byte. apply Z.mod_small. lia. Qed.

Lemma to_long_small z : - 2 ^ 31 <= z < 2 ^ 31 -> to_long z = z.
Proof. intros H. unfold to_long. rewrite Z.mod_small; lia. Qed.

Lemma to_ulong_sub_l a c : to_ulong (to_ulong a - c) = to_ulong (a - c).
Proof. unfold to_ulong. apply Zminus_mod_idemp_l. Qed.

Lemma to_ulong_sub_r a c : to_ulong (a - to_ulong c) = to_ulong (a - c).
Proof. unfold to_ulong. apply Zminus_mod_idemp_r. Qed.

Lemma interval_value : interval = 34.
Proof. reflexivity. Qed.

Arguments interval : simpl never.

(** ** updateMeter, branch by branch *)

Ltac run_updateMeter :=
  unfold exec, updateMeter, lastUpdate_static, bind, gets, when, modify,
         millis, analogWrite, ret, elapsed, armed.

Ltac settle_test :=
  match goal with
  | |- context [Z.gtb ?a ?b] => rewrite (Z.gtb_ltb a b)
  | |- context [Z.eqb ?a ?b] => destruct (Z.eqb_spec a b); try lia
  | |- context [Z.ltb ?a ?b] => destruct (Z.ltb_spec a b); try lia
  end.

Ltac settle_tests := repeat (settle_test; simpl in * ).

Ltac by_branches s g E :=
  run_updateMeter;
  destruct (lastUpdate_init s) eqn:E; destruct g; simpl in *; intros;
  settle_tests; unfold set_pwm, set_level; simpl; try rewrite E; reflexivity.

(** Idle: nothing but the initialisation of the static happens. *)
Lemma updateMeter_idle b s g T pin :
  level g s = T ->
  exec (updateMeter g T pin) b s = armed b s.
Proof. intros H. by_branches s g E. Qed.

(** Rising: the level becomes the target and is written. *)
Lemma updateMeter_rise b s g T pin :
  level g s < T ->
  exec (updateMeter g T pin) b s =
  set_pwm (pwm s ++ [(pin, T)]) (set_level g T (armed b s)).
Proof. intros H. by_branches s g E. Qed.

(** Falling, less than one step left: straight to 0, [millis()] is not read. *)
Lemma updateMeter_clamp b s g T pin :
  T < level g s -> level g s < interval ->
  exec (updateMeter g T pin) b s =
  set_pwm (pwm s ++ [(pin, 0)]) (set_level g 0 (armed b s)).
Proof. intros H H'. by_branches s g E. Qed.

(** Falling, rate limit passed: one step down, the time stamp is renewed. *)
Lemma updateMeter_step b s g T pin :
  T < level g s -> interval <= level g s ->
  updateInterval < elapsed b s ->
  exec (updateMeter g T pin) b s =
  set_pwm (pwm s ++ [(pin, to_byte (level g s - interval))])
    (set_lastUpdate (to_ulong (clock b (S (reads (armed b s)))))
       (set_reads (S (S (reads (armed b s))))
          (set_level g (to_byte (level g s - interval)) (armed b s)))).
Proof. intros H H'. by_branches s g E. Qed.

(** Falling, rate limit not passed: the level stays and is written again. *)
Lemma updateMeter_hold b s g T pin :
  T < level g s -> interval <= level g s ->
  elapsed b s <= updateInterval ->
  exec (updateMeter g T pin) b s =
  set_pwm (pwm s ++ [(pin, level g s)])
          (set_reads (S (reads (armed b s))) (armed b s)).
Proof. intros H H'. by_branches s g E. Qed.

Lemma branch_cases b s g T : branch b s g T.
Proof.
  destruct (Z_dec (level g s) T) as [[Hlt | Hgt] | Heq].
  - now apply Rise.
  - destruct (Z_lt_ge_dec (level g s) interval) as [Hc | Hc].
    + apply Clamp; lia.
    + destruct (Z_lt_ge_dec updateInterval (elapsed b s)).
      * apply Step; lia.
      * apply Hold; lia.
  - now apply Idle.
Qed.

(** Projections of the states the branches end in. *)
Lemma level_armed b s g : level g (armed b s) = level g s.
Proof. unfold armed. destruct (lastUpdate_init s), g; reflexivity. Qed.

Lemma pwm_armed b s : pwm (armed b s) = pwm s.
Proof. unfold armed. destruct (lastUpdate_init s); reflexivity. Qed.

Lemma level_set_level g v s : level g (set_level g v s) = v.
Proof. destruct g; reflexivity. Qed.

Lemma level_set_level_other g g' v s :
  g' <> g -> level g' (set_level g v s) = level g' s.
Proof. destruct g, g'; intros H; try reflexivity; congruence. Qed.

Lemma level_set_pwm g l s : level g (set_pwm l s) = level g s.
Proof. destruct g; reflexivity. Qed.

Lemma level_set_reads g n s : level g (set_reads n s) = level g s.
Proof. destruct g; reflexivity. Qed.

Lemma level_set_lastUpdate g t s : level g (set_lastUpdate t s) = level g s.
Proof. destruct g; reflexivity. Qed.

Create Rewrite HintDb needle.
#[local] Hint Rewrite level_armed pwm_armed level_set_level level_set_pwm
  level_set_reads level_set_lastUpdate : needle.

Ltac by_branch b s g T pin :=
  destruct (branch_cases b s g T);
  [ rewrite (updateMeter_idle b s g T pin) by assumption
  | rewrite (updateMeter_rise b s g T pin) by assumption
  | rewrite (updateMeter_clamp b s g T pin) by assumption
  | rewrite (updateMeter_step b s g T pin) by assumption
  | rewrite (updateMeter_hold b s g T pin) by assumption ];
  autorewrite with needle.

(** ** Rising and the write discipline *)

(** C2. Rising: when the target is above the current level, one call of
    [updateMeter] leaves the level equal to the target, and the only write it
    issues is the target itself on the meter's pin; no other value is written
    on the way. *)
Theorem rising_sets_target b s g T pin :
  level g s < T ->
  level g (exec (updateMeter g T pin) b s) = T /\
  pwm (exec (updateMeter g T pin) b s) = pwm s ++ [(pin, T)].
Proof.
  intros H. rewrite (updateMeter_rise b s g T pin H).
  autorewrite with needle. split; reflexivity.
Qed.

Lemma rising_sets_target_witness :
  level MinGauge (needle_at MinGauge 10 0) < 200 /\
  level MinGauge (exec (updateMeter MinGauge 200 VU_MIN_PIN)
                       (bench_board 1000 1 true DateTime_default)
                       (needle_at MinGauge 10 0)) = 200 /\
  pwm (exec (updateMeter MinGauge 200 VU_MIN_PIN)
            (bench_board 1000 1 true DateTime_default)
            (needle_at MinGauge 10 0)) = [(VU_MIN_PIN, 200)].
Proof.
  split; [ vm_compute; reflexivity | ].
  apply (rising_sets_target (bench_board 1000 1 true DateTime_default)
                            (needle_at MinGauge 10 0) MinGauge 200 VU_MIN_PIN).
  vm_compute; reflexivity.
Defined.

(** What does hold of the writes of one call: a call of [updateMeter] that
    finds the level equal to the target issues no write, a call that changes
    the level issues exactly one write, of the new level on the meter's pin,
    and no call issues more than one write, or a write of anything but the
    level it leaves. *)
Lemma write_discipline b s g T pin :
  (level g s = T ->
   pwm (exec (updateMeter g T pin) b s) = pwm s) /\
  (level g (exec (updateMeter g T pin) b s) <> level g s ->
   pwm (exec (updateMeter g T pin) b s) =
   pwm s ++ [(pin, level g (exec (updateMeter g T pin) b s))]) /\
  (pwm (exec (updateMeter g T pin) b s) = pwm s \/
   pwm (exec (updateMeter g T pin) b s) =
   pwm s ++ [(pin, level g (exec (updateMeter g T pin) b s))]).
Proof.
  by_branch b s g T pin;
    (split; [ intros; try reflexivity; lia
            | split; [ intros; try reflexivity; congruence | ] ]);
    solve [ left; reflexivity | right; reflexivity ].
Qed.

Lemma write_discipline_witness :
  pwm (exec (updateMeter MinGauge 10 VU_MIN_PIN)
            (bench_board 1000 1 true DateTime_default)
            (needle_at MinGauge 10 0)) = [] /\
  pwm (exec (updateMeter MinGauge 0 VU_MIN_PIN)
            (bench_board 1000 1 true DateTime_default)
            (needle_at MinGauge 100 0)) = [(VU_MIN_PIN, 66)].
Proof.
  split.
  - apply (proj1 (write_discipline (bench_board 1000 1 true DateTime_default)
                    (needle_at MinGauge 10 0) MinGauge 10 VU_MIN_PIN)).
    vm_compute; reflexivity.
  - apply (proj1 (proj2 (write_discipline (bench_board 1000 1 true DateTime_default)
                    (needle_at MinGauge 100 0) MinGauge 0 VU_MIN_PIN))).
    vm_compute; discriminate.
Defined.

(** A falling call that the rate limit holds back writes the unchanged level
    once more. *)
Lemma held_back_call_writes b s g T pin :
  T < level g s -> interval <= level g s -> elapsed b s <= updateInterval ->
  level g (exec (updateMeter g T pin) b s) = level g s /\
  pwm (exec (updateMeter g T pin) b s) = pwm s ++ [(pin, level g s)].
Proof.
  intros H1 H2 H3. rewrite (updateMeter_hold b s g T pin H1 H2 H3).
  autorewrite with needle. split; reflexivity.
Qed.

(** C4 does not hold of the code: the write is not tied to a change of the
    level.  [analogWrite] follows the rate test instead of sitting inside it,
    so a falling call that the rate limit holds back writes the level it
    found, against the comment "avoid calling analogWrite() if the value
    hasn't changed".  With the minute meter at 100, the target 0 and 50 ms
    since the last step, the call leaves the level at 100 and writes 100;
    ten such calls in a row write 100 ten times and move nothing. *)
Theorem held_back_call_rewrites_level :
  let b := bench_board 50 1 true DateTime_default in
  let s := needle_at MinGauge 100 0 in
  let s1 := exec (updateMeter MinGauge 0 VU_MIN_PIN) b s in
  let s10 := updates 10 MinGauge 0 VU_MIN_PIN b s in
  elapsed b s = 50 /\
  level MinGauge s1 = level MinGauge s /\
  pwm s = [] /\
  pwm s1 = [(VU_MIN_PIN, 100)] /\
  level MinGauge s10 = level MinGauge s /\
  pwm s10 = repeat (VU_MIN_PIN, 100) 10.
Proof.
  cbv zeta.
  split; [ vm_compute; reflexivity | ].
  split; [ vm_compute; reflexivity | ].
  split; [ reflexivity | ].
  split; [ vm_compute; reflexivity | ].
  split; vm_compute; reflexivity.
Qed.

(** ** The invariant of one update *)

(** C3 as stated fails: 2 ms apart, two updates lower a needle from 50 to 0,
    more than the one step of 34 the rate limit would allow in 100 ms.  The
    first call steps 50 -> 16, the second finds less than a step left and
    goes to 0 without consulting the time. *)
Lemma one_step_per_interval_fails :
  let b := bench_board 200 1 true DateTime_default in
  let s := needle_at MinGauge 50 0 in
  level MinGauge (updates 1 MinGauge 0 VU_MIN_PIN b s) = 16 /\
  level MinGauge (updates 2 MinGauge 0 VU_MIN_PIN b s) = 0 /\
  clock b (reads (updates 2 MinGauge 0 VU_MIN_PIN b s)) - clock b (reads s) = 2 /\
  ~ one_step_per_interval b s MinGauge 0 VU_MIN_PIN.
Proof.
  split; [ vm_compute; reflexivity | ].
  split; [ vm_compute; reflexivity | ].
  split; [ vm_compute; reflexivity | ].
  intros H. specialize (H 2%nat). vm_compute in H.
  apply H; [ discriminate | reflexivity ].
Qed.

(** C3, amended. Every update keeps the level within [0, 255]; a rising
    update jumps straight to the target; a single update never lowers the
    level by more than one step; a full step down is taken only when more
    than the rate-limit interval has elapsed since the last one, and renews
    the time stamp; a level below one step is set to 0 at once, whatever the
    time. *)
Theorem update_invariant b s g T pin :
  is_byte (level g s) -> is_byte T ->
  let s' := exec (updateMeter g T pin) b s in
  is_byte (level g s') /\
  (level g s < T -> level g s' = T) /\
  (level g s' < level g s -> level g s - level g s' <= interval) /\
  (level g s' < level g s -> interval <= level g s ->
   level g s' = level g s - interval /\
   updateInterval < elapsed b s /\
   lastUpdate s' = to_ulong (clock b (S (reads (armed b s))))) /\
  (T < level g s -> level g s < interval -> level g s' = 0).
Proof.
  unfold is_byte. intros Hc HT. cbv zeta.
  by_branch b s g T pin; rewrite ?interval_value in *;
    try rewrite (to_byte_small (level g s - 34)) by lia;
    (split; [ lia | split; [ intros; lia | split; [ intros; lia | split ] ] ]);
    intros; try lia.
  split; [ lia | split; [ assumption | reflexivity ] ].
Qed.

Lemma update_invariant_witness :
  let b := bench_board 200 1 true DateTime_default in
  let s := needle_at MinGauge 50 0 in
  let s' := exec (updateMeter MinGauge 0 VU_MIN_PIN) b s in
  is_byte (level MinGauge s) /\ is_byte 0 /\
  is_byte (level MinGauge s') /\
  (level MinGauge s < 0 -> level MinGauge s' = 0) /\
  (level MinGauge s' < level MinGauge s ->
   level MinGauge s - level MinGauge s' <= interval) /\
  (level MinGauge s' < level MinGauge s -> interval <= level MinGauge s ->
   level MinGauge s' = level MinGauge s - interval /\
   updateInterval < elapsed b s /\
   lastUpdate s' = to_ulong (clock b (S (reads (armed b s))))) /\
  (0 < level MinGauge s -> level MinGauge s < interval -> level MinGauge s' = 0).
Proof.
  intros b s s'.
  assert (Hc : is_byte (level MinGauge s)) by (vm_compute; split; discriminate).
  assert (HT : is_byte 0) by (vm_compute; split; discriminate).
  split; [ exact Hc | split; [ exact HT | ] ].
  exact (update_invariant b s MinGauge 0 VU_MIN_PIN Hc HT).
Defined.

(** ** Which state belongs to which meter *)

(** C7 as stated fails: there is one time stamp for all three meters.  An
    update of the second meter that steps down renews it, and the minute
    meter, which would have stepped from 100 to 66, is then held back. *)
Lemma needle_state_per_gauge_fails :
  let b := bench_board 200 1 true DateTime_default in
  let s := set_level SecGauge 100 (needle_at MinGauge 100 0) in
  let s' := exec (updateMeter SecGauge 0 VU_SEC_PIN) b s in
  sweep_stamp MinGauge s = (0, true) /\
  sweep_stamp MinGauge s' = (201, true) /\
  level MinGauge (exec (updateMeter MinGauge 0 VU_MIN_PIN) b s) = 66 /\
  level MinGauge (exec (updateMeter MinGauge 0 VU_MIN_PIN) b s') = 100 /\
  ~ needle_state_per_gauge b s SecGauge 0 VU_SEC_PIN.
Proof.
  split; [ vm_compute; reflexivity | ].
  split; [ vm_compute; reflexivity | ].
  split; [ vm_compute; reflexivity | ].
  split; [ vm_compute; reflexivity | ].
  intros H. destruct (H MinGauge) as [_ H']; [ discriminate | ].
  vm_compute in H'. discriminate.
Qed.

Lemma armed_ready b s : lastUpdate_init s = true -> armed b s = s.
Proof. intros H. unfold armed. now rewrite H. Qed.

(** C7, amended. The level is per meter: an update of one meter leaves the
    levels of the other two unchanged.  The time stamp is shared: when the
    updated meter takes a step down, the stamp every other meter is measured
    against becomes the time of that step; once initialised it changes in no
    other case. *)
Theorem other_meters_untouched b s g g' T pin :
  g' <> g ->
  let s' := exec (updateMeter g T pin) b s in
  level g' s' = level g' s /\
  (T < level g s -> interval <= level g s -> updateInterval < elapsed b s ->
   sweep_stamp g' s' = (to_ulong (clock b (S (reads (armed b s)))), true)) /\
  (lastUpdate_init s = true ->
   level g s <= T \/ level g s < interval \/ elapsed b s <= updateInterval ->
   sweep_stamp g' s' = sweep_stamp g' s).
Proof.
  intros Hg. cbv zeta.
  by_branch b s g T pin;
    rewrite ?level_set_level_other by assumption; autorewrite with needle;
    (split; [ reflexivity | split; intros; try lia ]);
    rewrite ?armed_ready by assumption;
    unfold sweep_stamp; destruct g; reflexivity.
Qed.

Lemma other_meters_untouched_witness :
  let b := bench_board 200 1 true DateTime_default in
  let s := set_level SecGauge 100 (needle_at MinGauge 100 0) in
  let s' := exec (updateMeter SecGauge 0 VU_SEC_PIN) b s in
  MinGauge <> SecGauge /\
  level MinGauge s' = 100 /\
  sweep_stamp MinGauge s' = (201, true).
Proof.
  intros b s s'.
  assert (Hg : MinGauge <> SecGauge) by discriminate.
  destruct (other_meters_untouched b s SecGauge MinGauge 0 VU_SEC_PIN Hg)
    as [Hl [Hs _]].
  split; [ exact Hg | split ].
  - exact Hl.
  - apply Hs;
      [ vm_compute; reflexivity | vm_compute; discriminate | vm_compute; reflexivity ].
Defined.

(** ** The falling needle *)

(** C1 as stated fails: a step can carry the level past the target.  From
    100 towards 90 the first update gives 66, which is neither 90 nor 0, and
    the second raises the level to 90. *)
Lemma falls_until_target_or_zero_fails :
  let b := bench_board 1000 1000 true DateTime_default in
  let s := needle_at MinGauge 100 0 in
  90 < level MinGauge s /\
  updateInterval < elapsed b s /\
  updateInterval < elapsed b (updates 1 MinGauge 90 VU_MIN_PIN b s) /\
  level MinGauge (updates 1 MinGauge 90 VU_MIN_PIN b s) = 66 /\
  level MinGauge (updates 2 MinGauge 90 VU_MIN_PIN b s) = 90 /\
  ~ falls_until_target_or_zero b s MinGauge 90 VU_MIN_PIN.
Proof.
  split; [ vm_compute; reflexivity | ].
  split; [ vm_compute; reflexivity | ].
  split; [ vm_compute; reflexivity | ].
  split; [ vm_compute; reflexivity | ].
  split; [ vm_compute; reflexivity | ].
  intros H. specialize (H 1%nat).
  assert (Hi : forall i, (i <= 1)%nat ->
             level MinGauge (updates i MinGauge 90 VU_MIN_PIN
                               (bench_board 1000 1000 true DateTime_default)
                               (needle_at MinGauge 100 0)) <> 90 /\
             level MinGauge (updates i MinGauge 90 VU_MIN_PIN
                               (bench_board 1000 1000 true DateTime_default)
                               (needle_at MinGauge 100 0)) <> 0).
  { intros [ | [ | i ] ] Hle; try lia; vm_compute; split; discriminate. }
  specialize (H Hi). vm_compute in H. apply H. reflexivity.
Qed.

Section Falling.

Variables (b : board) (g : gauge) (T pin : Z).

Lemma updates_snoc n s :
  updates (S n) g T pin b s =
  exec (updateMeter g T pin) b (updates n g T pin b s).
Proof.
  revert s. induction n as [ | n IH ]; intros s; [ reflexivity | ].
  change (updates (S (S n)) g T pin b s)
    with (updates (S n) g T pin b (exec (updateMeter g T pin) b s)).
  rewrite IH. reflexivity.
Qed.

(** One update of a falling needle that finds the rate limit passed. *)
Lemma one_fall s :
  updateInterval < elapsed b s -> T < level g s -> 0 <= level g s <= 255 ->
  level g (exec (updateMeter g T pin) b s) = lowered (level g s).
Proof.
  intros He H1 Hc. unfold lowered.
  destruct (Z.ltb_spec (level g s) interval) as [Hlt | Hge].
  - rewrite (updateMeter_clamp b s g T pin H1 Hlt).
    autorewrite with needle. reflexivity.
  - rewrite (updateMeter_step b s g T pin H1 Hge He).
    autorewrite with needle. apply to_byte_small.
    rewrite interval_value in *. lia.
Qed.

(** An update of a needle at or below the target leaves it at the target. *)
Lemma settle_at_target s :
  level g s <= T -> level g (exec (updateMeter g T pin) b s) = T.
Proof.
  intros H. destruct (Z.eq_dec (level g s) T) as [He | Hne].
  - rewrite (updateMeter_idle b s g T pin He). now autorewrite with needle.
  - rewrite (updateMeter_rise b s g T pin) by lia. now autorewrite with needle.
Qed.

Lemma spaced_tail n s :
  spaced (S n) b s g T pin ->
  updateInterval < elapsed b s /\
  spaced n b (exec (updateMeter g T pin) b s) g T pin.
Proof.
  intros H. split.
  - apply (H 0%nat). lia.
  - intros i Hi. apply (H (S i)). lia.
Qed.

Lemma descent n : forall s,
  spaced n b s g T pin -> 0 <= T < level g s -> level g s <= 255 ->
  level g s < interval * Z.of_nat n ->
  exists k, (1 <= k <= n)%nat /\
    (forall i, (i < k)%nat ->
       T < level g (updates i g T pin b s) /\
       level g (updates (S i) g T pin b s) =
       lowered (level g (updates i g T pin b s))) /\
    0 <= level g (updates k g T pin b s) <= T.
Proof.
  induction n as [ | n IH ]; intros s Hp HT Hc Hn.
  - rewrite interval_value in Hn. lia.
  - destruct (spaced_tail n s Hp) as [He Hp'].
    pose proof (one_fall s He ltac:(lia) ltac:(lia)) as Hl.
    assert (H0 : 0 <= lowered (level g s)).
    { unfold lowered. destruct (Z.ltb_spec (level g s) interval); lia. }
    destruct (Z_le_gt_dec (lowered (level g s)) T) as [Hdone | Hmore].
    + exists 1%nat. split; [ lia | split ].
      * intros i Hi. assert (i = 0)%nat by lia. subst i. simpl.
        split; [ lia | exact Hl ].
      * simpl. rewrite Hl. lia.
    + assert (Hstep : lowered (level g s) = level g s - interval).
      { unfold lowered in *.
        destruct (Z.ltb_spec (level g s) interval); [ lia | reflexivity ]. }
      destruct (IH (exec (updateMeter g T pin) b s)) as [k [Hk [Hi Hend]]];
        try rewrite Hl; try lia; try assumption.
      { rewrite interval_value in *. lia. }
      exists (S k). split; [ lia | split ].
      * intros [ | i ] Hlt.
        -- simpl. split; [ lia | exact Hl ].
        -- apply (Hi i). lia.
      * exact Hend.
Qed.

(** *** A board on which every run of updates is spaced *)

Lemma armed_init s : lastUpdate_init (armed b s) = true.
Proof. unfold armed. destruct (lastUpdate_init s) eqn:E; [ exact E | reflexivity ]. Qed.

Lemma reads_armed s : (reads s <= reads (armed b s))%nat.
Proof. unfold armed. destruct (lastUpdate_init s); simpl; lia. Qed.

(** Pacing is about the readings still to come and the time stamp. *)
Lemma paced_later s s' :
  paced b s ->
  lastUpdate_init s' = true ->
  (reads s <= reads s')%nat ->
  updateInterval < to_ulong (clock b (reads s') - lastUpdate s') ->
  paced b s'.
Proof.
  intros [Hk _] Hi Hr He. split.
  - intros k Hle. apply Hk. lia.
  - unfold elapsed. rewrite (armed_ready b s' Hi), to_ulong_sub_l. exact He.
Qed.

Lemma paced_armed s : paced b s -> paced b (armed b s).
Proof.
  intros Hp. apply (paced_later s); [ exact Hp | apply armed_init | apply reads_armed | ].
  destruct Hp as [_ He]. unfold elapsed in He. rewrite to_ulong_sub_l in He.
  exact He.
Qed.

Lemma paced_frame s l v :
  paced b s -> lastUpdate_init s = true ->
  paced b (set_pwm l (set_level g v s)).
Proof.
  intros Hp Hi. apply (paced_later s); [ exact Hp | | | ].
  - destruct g; exact Hi.
  - destruct g; simpl; lia.
  - destruct Hp as [_ He]. unfold elapsed in He.
    rewrite (armed_ready b s Hi), to_ulong_sub_l in He.
    destruct g; exact He.
Qed.

Lemma paced_update s :
  paced b s -> paced b (exec (updateMeter g T pin) b s).
Proof.
  intros Hp.
  destruct (branch_cases b s g T) as [H | H | H H' | H H' He | H H' He].
  - rewrite (updateMeter_idle b s g T pin H). now apply paced_armed.
  - rewrite (updateMeter_rise b s g T pin H).
    apply paced_frame; [ now apply paced_armed | apply armed_init ].
  - rewrite (updateMeter_clamp b s g T pin H H').
    apply paced_frame; [ now apply paced_armed | apply armed_init ].
  - rewrite (updateMeter_step b s g T pin H H' He).
    apply (paced_later s); [ exact Hp | reflexivity | | ].
    + pose proof (reads_armed s). destruct g; simpl; lia.
    + destruct Hp as [Hk _].
      assert (Hs : updateInterval <
                   to_ulong (clock b (S (S (reads (armed b s)))) -
                             to_ulong (clock b (S (reads (armed b s)))))).
      { rewrite to_ulong_sub_r. apply Hk. pose proof (reads_armed s). lia. }
      destruct g; exact Hs.
  - destruct Hp as [_ Hp]. lia.
Qed.

Lemma paced_spaced n : forall s, paced b s -> spaced n b s g T pin.
Proof.
  induction n as [ | n IH ]; intros s Hp i Hi; [ lia | ].
  destruct i as [ | i ].
  - exact (proj2 Hp).
  - apply (IH (exec (updateMeter g T pin) b s)); [ now apply paced_update | lia ].
Qed.

End Falling.

(** C1, amended. With a target below the current level and update calls
    that each come more than the rate-limit interval after the last step, at
    most 8 updates bring the level to or below the target: each of them
    lowers the level by exactly one step, or to 0 when less than a step is
    left, and never below 0.  The descent ends at the first level that is
    not above the target, which can lie below it; the update after that
    leaves the level at the target. *)
Theorem falling_descent b s g T pin :
  is_byte (level g s) -> 0 <= T < level g s -> spaced 8 b s g T pin ->
  exists k, (1 <= k <= 8)%nat /\
    (forall i, (i < k)%nat ->
       T < level g (updates i g T pin b s) /\
       level g (updates (S i) g T pin b s) =
       lowered (level g (updates i g T pin b s))) /\
    0 <= level g (updates k g T pin b s) <= T /\
    level g (updates (S k) g T pin b s) = T.
Proof.
  intros [Hc0 Hc] HT Hp.
  destruct (descent b g T pin 8 s Hp HT Hc) as [k [Hk [Hi Hend]]].
  { rewrite interval_value. lia. }
  exists k. split; [ exact Hk | split; [ exact Hi | split; [ exact Hend | ] ] ].
  rewrite updates_snoc. apply settle_at_target. lia.
Qed.

(** On a board read once a second the calls of any run are spaced. *)
Lemma bench_board_paced t0 c last :
  updateInterval < to_ulong (t0 - last) ->
  paced (bench_board t0 1000 true DateTime_default) (needle_at MinGauge c last).
Proof.
  intros H. split.
  - intros k _. unfold bench_board. cbn [clock].
    replace (t0 + 1000 * Z.of_nat (S k) - (t0 + 1000 * Z.of_nat k)) with 1000 by lia.
    vm_compute. reflexivity.
  - unfold elapsed. rewrite to_ulong_sub_l. unfold bench_board, needle_at, armed.
    cbn [clock lastUpdate lastUpdate_init reads set_lastUpdate set_level power_on Z.of_nat].
    replace (t0 + 1000 * 0 - last) with (t0 - last) by lia. exact H.
Qed.

Lemma falling_descent_witness :
  let b := bench_board 1000 1000 true DateTime_default in
  let s := needle_at MinGauge 100 0 in
  exists k, (1 <= k <= 8)%nat /\
    (forall i, (i < k)%nat ->
       90 < level MinGauge (updates i MinGauge 90 VU_MIN_PIN b s) /\
       level MinGauge (updates (S i) MinGauge 90 VU_MIN_PIN b s) =
       lowered (level MinGauge (updates i MinGauge 90 VU_MIN_PIN b s))) /\
    0 <= level MinGauge (updates k MinGauge 90 VU_MIN_PIN b s) <= 90 /\
    level MinGauge (updates (S k) MinGauge 90 VU_MIN_PIN b s) = 90.
Proof.
  intros b s.
  apply (falling_descent b s MinGauge 90 VU_MIN_PIN).
  - vm_compute. split; discriminate.
  - vm_compute. split; [ discriminate | reflexivity ].
  - apply paced_spaced. apply bench_board_paced. vm_compute. reflexivity.
Defined.

(** The full-scale sweep of the minute meter at the turn of the hour:
    251 -> 217 -> 183 -> 149 -> 115 -> 81 -> 47 -> 13 -> 0. *)
Example minute_rollover_sweep :
  List.map (fun n => level MinGauge
                       (updates n MinGauge 0 VU_MIN_PIN
                                (bench_board 1000 1000 true DateTime_default)
                                (needle_at MinGauge 251 0)))
           (seq 0 10) =
  [251; 217; 183; 149; 115; 81; 47; 13; 0; 0].
Proof. vm_compute. reflexivity. Qed.

(** ** The second-hand mapping *)

Lemma map_sweep e :
  0 <= e < 60000 -> map (to_long e) 0 60000 0 255 = e * 255 / 60000.
Proof.
  intros He. unfold map.
  assert (Hq : 0 <= e * 255 / 60000 <= 254).
  { split.
    - apply Z.div_pos; lia.
    - apply Z.lt_succ_r. apply Z.div_lt_upper_bound; lia. }
  rewrite (to_long_small e) by lia.
  rewrite !Z.sub_0_r.
  rewrite (to_long_small e) by lia.
  rewrite (to_long_small 255) by lia.
  rewrite (to_long_small 60000) by lia.
  rewrite (to_long_small (e * 255)) by lia.
  rewrite Z.quot_div_nonneg by lia.
  rewrite Z.add_0_r.
  rewrite !(to_long_small (e * 255 / 60000)) by lia.
  reflexivity.
Qed.

Lemma secLevel_floor e : 0 <= e < 60000 -> secLevel e = e * 255 / 60000.
Proof.
  intros He. unfold secLevel. rewrite (map_sweep e He).
  apply to_byte_small. split.
  - apply Z.div_pos; lia.
  - assert (e * 255 / 60000 < 255) by (apply Z.div_lt_upper_bound; lia). lia.
Qed.

(** C5. Over one minute the second-hand level never decreases as the
    elapsed milliseconds grow; it is 0 at 0 ms and 254, one short of full
    scale, at 59999 ms. *)
Theorem secLevel_monotone e1 e2 :
  0 <= e1 -> e1 < e2 -> e2 < 60000 ->
  secLevel e1 <= secLevel e2 /\
  secLevel 0 = 0 /\
  secLevel 59999 = 254 /\ 255 - secLevel 59999 <= 1.
Proof.
  intros H0 H12 H2.
  rewrite (secLevel_floor e1), (secLevel_floor e2) by lia.
  split; [ apply Z.div_le_mono; lia | ].
  split; [ reflexivity | split; [ reflexivity | ] ].
  vm_compute. discriminate.
Qed.

Lemma secLevel_monotone_witness :
  0 <= 29999 /\ 29999 < 30000 /\ 30000 < 60000 /\
  secLevel 29999 <= secLevel 30000 /\
  secLevel 0 = 0 /\
  secLevel 59999 = 254 /\ 255 - secLevel 59999 <= 1.
Proof.
  split; [ lia | split; [ lia | split; [ lia | ] ] ].
  apply (secLevel_monotone 29999 30000); lia.
Defined.

(** C6 as stated fails: [map] truncates.  At 200 ms the level is 0, while
    200 * 255 / 60000 = 0.85 rounds to 1. *)
Lemma secLevel_not_rounded :
  0 <= 200 < 60000 /\ secLevel 200 = 0 /\ secLevel_rounded 200 = 1 /\
  secLevel 200 <> secLevel_rounded 200.
Proof.
  split; [ lia | ].
  split; [ reflexivity | split; [ reflexivity | ] ].
  vm_compute. discriminate.
Qed.

(** C6, amended. For elapsed milliseconds in [0, 60000) the second-hand
    level is e * 255 / 60000 rounded down (the proportional scaling of
    [map], whose division truncates); it lies in [0, 254] and is never more
    than one below the value rounded to nearest. *)
Theorem secLevel_truncates e :
  0 <= e < 60000 ->
  secLevel e = e * 255 / 60000 /\
  0 <= secLevel e <= 254 /\
  secLevel e <= secLevel_rounded e <= secLevel e + 1.
Proof.
  intros He. rewrite (secLevel_floor e He).
  unfold secLevel_rounded, round_nearest.
  assert (Hlo : 0 <= e * 255 / 60000) by (apply Z.div_pos; lia).
  assert (Hhi : e * 255 / 60000 < 255) by (apply Z.div_lt_upper_bound; lia).
  split; [ reflexivity | split; [ lia | ] ].
  pose proof (Z.div_mod (e * 255) 60000 ltac:(lia)) as Hd.
  pose proof (Z.mod_pos_bound (e * 255) 60000 ltac:(lia)) as Hm.
  split.
  - apply Z.div_le_lower_bound; lia.
  - apply Z.lt_succ_r. apply Z.div_lt_upper_bound; lia.
Qed.

Lemma secLevel_truncates_witness :
  0 <= 200 < 60000 /\
  secLevel 200 = 200 * 255 / 60000 /\
  0 <= secLevel 200 <= 254 /\
  secLevel 200 <= secLevel_rounded 200 <= secLevel 200 + 1.
Proof.
  split; [ lia | ].
  apply (secLevel_truncates 200). lia.
Defined.

(** ** The hour index *)

(** C9. The 24-hour to 12-hour conversion sends 0 and 12 to 12, 13 to 1 and
    23 to 11, and every hour from 0 to 23 to an index from 1 to 12. *)
Theorem hour12_index h :
  0 <= h <= 23 ->
  hour12 0 = 12 /\ hour12 12 = 12 /\ hour12 13 = 1 /\ hour12 23 = 11 /\
  1 <= hour12 h <= 12.
Proof.
  intros Hh.
  split; [ reflexivity | split; [ reflexivity | split; [ reflexivity | ] ] ].
  split; [ reflexivity | ].
  unfold hour12.
  destruct (Z.eqb_spec h 0) as [-> | H0]; [ vm_compute; split; discriminate | ].
  destruct (Z.eqb_spec h 12) as [-> | H12]; [ vm_compute; split; discriminate | ].
  cbn [orb]. rewrite Z.rem_mod_nonneg by lia.
  pose proof (Z.mod_pos_bound h 12 ltac:(lia)) as Hm.
  assert (Hz : h mod 12 <> 0).
  { intros Hz. apply Z.mod_divide in Hz; [ | lia ].
    destruct Hz as [q Hq]. lia. }
  rewrite to_byte_small by lia. lia.
Qed.

Lemma hour12_index_witness :
  0 <= 18 <= 23 /\
  hour12 0 = 12 /\ hour12 12 = 12 /\ hour12 13 = 1 /\ hour12 23 = 11 /\
  1 <= hour12 18 <= 12.
Proof.
  split; [ lia | ].
  apply (hour12_index 18). lia.
Defined.

(** ** The second-boundary anchor *)

Lemma getRTCTime_result b s :
  getRTCTime b s =
  (tt,
   let s1 := set_curTime (rtc_time b (polls s)) (set_polls (S (polls s)) s) in
   if second (curTime s) <? second (rtc_time b (polls s))
   then set_lastSecond (to_ulong (clock b (reads s))) (set_reads (S (reads s)) s1)
   else s1).
Proof.
  unfold getRTCTime, bind, gets, modify, when, rtc_now, millis, ret. simpl.
  destruct (second (curTime s) <? second (rtc_time b (polls s))); reflexivity.
Qed.

(** C10. [getRTCTime] stores the new reading of the clock chip and moves the
    anchor [lastSecond] exactly when the new second is strictly greater than
    the one of the previous poll: then the anchor becomes the next reading
    of [millis()], otherwise neither the anchor changes nor is [millis()]
    read.  In particular a poll that finds second 0 after second 59 keeps
    the anchor, and [displayTime] computes the second-hand target of that
    cycle from 0 * 1000 plus the time since the old anchor. *)
Theorem anchor_refresh b s :
  let s' := exec getRTCTime b s in
  let oldSec := second (curTime s) in
  let newSec := second (rtc_time b (polls s)) in
  curTime s' = rtc_time b (polls s) /\
  (oldSec < newSec ->
   lastSecond s' = to_ulong (clock b (reads s)) /\ reads s' = S (reads s)) /\
  (newSec <= oldSec ->
   lastSecond s' = lastSecond s /\ reads s' = reads s) /\
  (oldSec = 59 -> newSec = 0 ->
   lastSecond s' = lastSecond s /\
   exec displayTime b s =
   exec (updateMeter SecGauge
           (secLevel (curSecMillis 0 (to_ulong (clock b (reads s))) (lastSecond s)))
           VU_SEC_PIN ;;
         updateMeter MinGauge
           (to_byte (pgm_read_byte minuteVals (minute (rtc_time b (polls s)))))
           VU_MIN_PIN ;;
         updateMeter HourGauge
           (to_byte (pgm_read_byte hourVals
                       (hour12 (hour (rtc_time b (polls s))) - 1)))
           VU_HOUR_PIN)
        b (set_reads (S (reads s)) s')).
Proof.
  cbv zeta. unfold exec at 1 2 3 4 5 6. rewrite getRTCTime_result. cbv zeta.
  cbn [snd].
  split; [ | split; [ | split ] ].
  - destruct (second (curTime s) <? second (rtc_time b (polls s))); reflexivity.
  - intros H. apply Z.ltb_lt in H. rewrite H. split; reflexivity.
  - intros H. apply Z.ltb_ge in H. rewrite H. split; reflexivity.
  - intros H59 H0.
    assert (H : (second (curTime s) <? second (rtc_time b (polls s))) = false)
      by (apply Z.ltb_ge; lia).
    split; [ rewrite H; reflexivity | ].
    unfold exec, displayTime.
    unfold bind at 1. rewrite getRTCTime_result. cbv zeta. rewrite H.
    unfold bind at 1. unfold gets at 1. cbn [curTime set_curTime].
    unfold bind at 1. unfold millis at 1.
    unfold bind at 1. unfold gets at 1.
    cbn [lastSecond set_reads set_curTime set_polls reads].
    rewrite H0. reflexivity.
Qed.

Lemma anchor_refresh_witness :
  let b := bench_board 5000 1 true (mkDateTime 2020 1 1 7 31 0) in
  let s := set_lastSecond 4000 (set_curTime (mkDateTime 2020 1 1 7 30 59) power_on) in
  second (curTime s) = 59 /\ second (rtc_time b (polls s)) = 0 /\
  lastSecond (exec getRTCTime b s) = 4000 /\
  reads (exec getRTCTime b s) = 0%nat /\
  exec displayTime b s =
  exec (updateMeter SecGauge (secLevel (curSecMillis 0 5000 4000)) VU_SEC_PIN ;;
        updateMeter MinGauge 131 VU_MIN_PIN ;;
        updateMeter HourGauge 142 VU_HOUR_PIN)
       b (set_reads 1 (exec getRTCTime b s)).
Proof.
  intros b s.
  destruct (anchor_refresh b s) as [_ [_ [Hkeep Hroll]]].
  split; [ reflexivity | split; [ reflexivity | ] ].
  split; [ apply Hkeep; vm_compute; discriminate | ].
  split; [ apply Hkeep; vm_compute; discriminate | ].
  apply Hroll; reflexivity.
Defined.

(** ** Start-up without a clock chip *)

Lemma step_reset_missing b :
  rtc_found b = false ->
  step b reset = mkMachine Halted (set_pwm diagnostic_writes power_on).
Proof.
  intros H. unfold step, reset, setup, bind, rtc_begin, analogWrite,
    pinMode_OUTPUT, modify, ret.
  cbn [stage mem]. rewrite H. reflexivity.
Qed.

Lemma run_halted b n m : stage m = Halted -> run b n m = m.
Proof.
  intros H. induction n as [ | n IH ]; [ reflexivity | ].
  cbn [run]. unfold step. rewrite H. exact IH.
Qed.

(** C8. When the clock chip does not answer at start-up, [setup] sets the
    three meters to 128 and never returns: after any number of steps the
    machine is halted, [loop] has never run (the clock chip was never
    polled), and the six writes of [setup] are all the writes there are, the
    last one on each pin being 128. *)
Theorem rtc_missing_halts b n :
  rtc_found b = false ->
  stage (run b n reset) <> Looping /\
  stage (run b (S n) reset) = Halted /\
  pwm (mem (run b (S n) reset)) = diagnostic_writes /\
  last_write VU_SEC_PIN (pwm (mem (run b (S n) reset))) = Some 128 /\
  last_write VU_MIN_PIN (pwm (mem (run b (S n) reset))) = Some 128 /\
  last_write VU_HOUR_PIN (pwm (mem (run b (S n) reset))) = Some 128 /\
  polls (mem (run b (S n) reset)) = 0%nat.
Proof.
  intros H.
  assert (HS : forall k, run b (S k) reset =
                         mkMachine Halted (set_pwm diagnostic_writes power_on)).
  { intros k. cbn [run]. rewrite (step_reset_missing b H).
    apply run_halted. reflexivity. }
  split.
  - destruct n as [ | n ]; [ discriminate | rewrite HS; discriminate ].
  - rewrite HS. cbn [stage mem].
    split; [ reflexivity | split; [ reflexivity | ] ].
    split; [ reflexivity | split; [ reflexivity | split; reflexivity ] ].
Qed.

Lemma rtc_missing_halts_witness :
  let b := bench_board 0 1 false DateTime_default in
  rtc_found b = false /\
  stage (run b 5 reset) <> Looping /\
  stage (run b 6 reset) = Halted /\
  pwm (mem (run b 6 reset)) = diagnostic_writes /\
  last_write VU_SEC_PIN (pwm (mem (run b 6 reset))) = Some 128 /\
  last_write VU_MIN_PIN (pwm (mem (run b 6 reset))) = Some 128 /\
  last_write VU_HOUR_PIN (pwm (mem (run b 6 reset))) = Some 128 /\
  polls (mem (run b 6 reset)) = 0%nat.
Proof.
  intros b. split; [ reflexivity | ].
  apply (rtc_missing_halts b 5). reflexivity.
Defined.

(** With the clock chip present [setup] returns and the machine goes on to
    the display loop. *)
Lemma setup_returns b s : rtc_found b = true -> fst (setup b s) = Returned.
Proof.
  intros H.
  unfold setup, bind, rtc_begin, analogWrite, pinMode_OUTPUT, modify, ret.
  rewrite H. cbn [negb].
  repeat match goal with
         | |- context [let (_, _) := ?x in _] => destruct x
         end.
  reflexivity.
Qed.

Lemma rtc_present_loops b n :
  rtc_found b = true -> stage (run b (S n) reset) = Looping.
Proof.
  intros H. cbn [run].
  assert (Hs : stage (step b reset) = Looping).
  { unfold step. cbn [stage reset mem].
    pose proof (setup_returns b power_on H) as Hr.
    destruct (setup b power_on) as [o s]. cbn [fst] in Hr. subst o.
    reflexivity. }
  revert Hs. generalize (step b reset). clear H.
  induction n as [ | n IH ]; intros m Hm; [ exact Hm | ].
  cbn [run]. apply IH. unfold step. rewrite Hm. reflexivity.
Qed.

(** ** One display cycle, run *)

(** At 00:00:30, half a second into the second, with all needles at 0: the
    second meter jumps to 129, the minute meter is left alone and the hour
    meter jumps to full scale. *)
Example displayTime_half_past :
  let b := bench_board 500 1 true (mkDateTime 2020 1 1 0 0 30) in
  let s := set_curTime (mkDateTime 2020 1 1 0 0 30) power_on in
  let s' := exec displayTime b s in
  (level SecGauge s', level MinGauge s', level HourGauge s') = (129, 0, 255) /\
  pwm s' = [(VU_SEC_PIN, 129); (VU_HOUR_PIN, 255)].
Proof. vm_compute. split; reflexivity. Qed.

(** * Further properties of the sketch *)

(** ** testMeter *)

Lemma set_pwm_same s : set_pwm (pwm s) s = s.
Proof. destruct s; reflexivity. Qed.

Lemma set_pwm_twice l l' s : set_pwm l' (set_pwm l s) = set_pwm l' s.
Proof. reflexivity. Qed.

Lemma pwm_set_pwm l s : pwm (set_pwm l s) = l.
Proof. reflexivity. Qed.

(** A loop of [analogWrite]s on one pin appends its values to the log and
    does nothing else. *)
Lemma for_each_analogWrite pin d l b : forall s,
  exec (for_each l (fun i => analogWrite pin i ;; delay d)) b s =
  set_pwm (pwm s ++ List.map (pair pin) l) s.
Proof.
  induction l as [ | x l IH ]; intros s.
  - cbn [for_each List.map]. rewrite app_nil_r. unfold exec, ret. cbn [snd].
    symmetry. apply set_pwm_same.
  - unfold exec in *. cbn [for_each]. unfold bind at 1.
    unfold bind at 1. unfold analogWrite at 1, modify at 1, delay at 1, ret at 1.
    rewrite IH. rewrite pwm_set_pwm, set_pwm_twice, <- app_assoc. reflexivity.
Qed.

Lemma exec_seq {A} (m : M unit) (k : M A) b s :
  exec (m ;; k) b s = exec k b (exec m b s).
Proof. unfold exec, bind. destruct (m b s). reflexivity. Qed.

Lemma testMeter_result pin b s :
  exec (testMeter pin) b s =
  set_pwm (pwm s ++ List.map (pair pin) sweep_values) s.
Proof.
  unfold testMeter, sweep_values.
  rewrite exec_seq, for_each_analogWrite.
  rewrite exec_seq. change (exec (delay 5) b ?x) with x.
  rewrite for_each_analogWrite.
  rewrite pwm_set_pwm, set_pwm_twice, <- app_assoc, <- map_app. reflexivity.
Qed.

Lemma last_write_snoc pin l p v :
  last_write pin (l ++ [(p, v)]) = if p =? pin then Some v else last_write pin l.
Proof.
  induction l as [ | [q w] l IH ].
  - reflexivity.
  - cbn [app last_write]. rewrite IH.
    destruct (p =? pin); [ reflexivity | ].
    destruct (last_write pin l); reflexivity.
Qed.

Lemma last_write_app pin l l' :
  last_write pin (l ++ l') =
  match last_write pin l' with
  | Some v => Some v
  | None => last_write pin l
  end.
Proof.
  induction l as [ | [q w] l IH ].
  - cbn [app last_write]. destruct (last_write pin l'); reflexivity.
  - cbn [app last_write]. rewrite IH.
    destruct (last_write pin l'); reflexivity.
Qed.

(** The sweep leaves its own pin at 1 and says nothing about other pins. *)
Lemma last_write_sweep pin p :
  last_write pin (List.map (pair p) sweep_values) =
  if p =? pin then Some 1 else None.
Proof.
  change sweep_values with (removelast sweep_values ++ [1]).
  rewrite map_app. cbn [List.map]. rewrite last_write_snoc.
  destruct (Z.eqb_spec p pin) as [E | E]; [ reflexivity | ].
  induction (removelast sweep_values) as [ | x l IH ]; [ reflexivity | ].
  cbn [List.map last_write]. rewrite IH.
  destruct (Z.eqb_spec p pin); [ contradiction | reflexivity ].
Qed.

Lemma sweep_values_bytes : Forall is_byte sweep_values.
Proof.
  apply Forall_forall. intros x Hx. unfold sweep_values in Hx.
  apply in_app_or in Hx. destruct Hx as [Hx | Hx].
  - apply in_map_iff in Hx. destruct Hx as [k [<- Hk]].
    apply in_seq in Hk. unfold is_byte. lia.
  - apply in_rev in Hx. apply in_map_iff in Hx. destruct Hx as [k [<- Hk]].
    apply in_seq in Hk. unfold is_byte. lia.
Qed.

(** X1. [testMeter] appends 510 writes on its pin to the log and changes
    nothing else: the values rise from 0 to 254, go on to 255 and come down
    to 1, every value one away from the one before it.  The sweep does not
    end at 0: the pin is left at 1. *)
Theorem testMeter_sweep pin b s :
  exec (testMeter pin) b s =
    set_pwm (pwm s ++ List.map (pair pin) sweep_values) s /\
  length sweep_values = 510%nat /\
  smooth sweep_values = true /\
  Forall is_byte sweep_values /\
  hd 0 sweep_values = 0 /\
  last_write pin (pwm (exec (testMeter pin) b s)) = Some 1.
Proof.
  split; [ apply testMeter_result | ].
  split; [ reflexivity | ].
  split; [ vm_compute; reflexivity | ].
  split; [ apply sweep_values_bytes | ].
  split; [ reflexivity | ].
    rewrite testMeter_result, pwm_set_pwm, last_write_app, last_write_sweep.
    now rewrite Z.eqb_refl.
Qed.

(** ** setup with the clock chip present *)

Lemma run_unit (m : M unit) b s : m b s = (tt, exec m b s).
Proof. unfold exec. destruct (m b s) as [[] s']. reflexivity. Qed.

(** What [setup] leaves behind when the clock chip answers. *)
Lemma setup_found b s :
  rtc_found b = true ->
  setup b s =
  (Returned,
   set_pwm (pwm s ++ [(VU_SEC_PIN, 0); (VU_MIN_PIN, 0); (VU_HOUR_PIN, 0)]
                  ++ List.map (pair VU_HOUR_PIN) sweep_values
                  ++ List.map (pair VU_MIN_PIN) sweep_values
                  ++ List.map (pair VU_SEC_PIN) sweep_values)
           (if rtc_running b then s
            else set_rtc_set (Some (mkDateTime 2020 1 1 0 0 0)) s)).
Proof.
  intros H.
  unfold setup, bind, pinMode_OUTPUT, rtc_begin, rtc_isrunning, when, rtc_adjust.
  unfold analogWrite at 1 2 3. unfold modify, ret.
  rewrite H. cbn [negb].
  destruct (rtc_running b); cbn [negb];
    rewrite (run_unit (testMeter VU_HOUR_PIN)), testMeter_result;
    rewrite (run_unit (testMeter VU_MIN_PIN)), testMeter_result;
    rewrite (run_unit (testMeter VU_SEC_PIN)), testMeter_result;
    cbn [pwm set_pwm set_rtc_set]; rewrite <- !app_assoc; reflexivity.
Qed.

(** What [setup] leaves behind when the clock chip does not answer. *)
Lemma setup_missing b s :
  rtc_found b = false ->
  setup b s =
  (Hung,
   set_pwm (pwm s ++ [(VU_SEC_PIN, 0); (VU_MIN_PIN, 0); (VU_HOUR_PIN, 0);
                      (VU_SEC_PIN, 128); (VU_MIN_PIN, 128); (VU_HOUR_PIN, 128)]) s).
Proof.
  intros H.
  unfold setup, bind, pinMode_OUTPUT, rtc_begin, analogWrite, modify, ret.
  rewrite H. cbn [negb pwm set_pwm]. rewrite <- !app_assoc. reflexivity.
Qed.

(** X2. When the clock chip answers, [setup] returns after 1533 writes
    without reading [millis()] or the clock's time, and leaves every pin at
    1, the last value of the start-up sweep, while the levels the program
    holds are untouched: a meter whose level is 0 is not in sync with its
    pin when the display loop starts. *)
Theorem setup_leaves_pins_at_one b s :
  rtc_found b = true ->
  fst (setup b s) = Returned /\
  (forall g,
     last_write (pin_of g) (pwm (exec setup b s)) = Some 1 /\
     level g (exec setup b s) = level g s /\
     (level g s = 0 -> ~ in_sync g (exec setup b s))) /\
  length (pwm (exec setup b s)) = (length (pwm s) + 1533)%nat /\
  reads (exec setup b s) = reads s /\
  polls (exec setup b s) = polls s.
Proof.
  intros H. unfold exec. rewrite (setup_found b s H). cbn [fst snd].
  split; [ reflexivity | ].
  assert (Hw : forall g,
    last_write (pin_of g)
      (pwm s ++ [(VU_SEC_PIN, 0); (VU_MIN_PIN, 0); (VU_HOUR_PIN, 0)]
             ++ List.map (pair VU_HOUR_PIN) sweep_values
             ++ List.map (pair VU_MIN_PIN) sweep_values
             ++ List.map (pair VU_SEC_PIN) sweep_values) = Some 1).
  { intros g. rewrite !last_write_app, !last_write_sweep. destruct g; reflexivity. }
  assert (Hl : forall g,
    level g (set_pwm
               (pwm s ++ [(VU_SEC_PIN, 0); (VU_MIN_PIN, 0); (VU_HOUR_PIN, 0)]
                      ++ List.map (pair VU_HOUR_PIN) sweep_values
                      ++ List.map (pair VU_MIN_PIN) sweep_values
                      ++ List.map (pair VU_SEC_PIN) sweep_values)
               (if rtc_running b then s
                else set_rtc_set (Some (mkDateTime 2020 1 1 0 0 0)) s)) = level g s).
  { intros g. destruct (rtc_running b), g; reflexivity. }
  split; [ | split; [ | split ] ].
  - intros g. split; [ apply Hw | split; [ apply Hl | ] ].
    intros H0 Hs. unfold in_sync in Hs. rewrite Hl, H0 in Hs.
    rewrite pwm_set_pwm, Hw in Hs. discriminate.
  - rewrite pwm_set_pwm, !length_app, !length_map. cbn [length].
    change (length sweep_values) with 510%nat. lia.
  - destruct (rtc_running b); reflexivity.
  - destruct (rtc_running b); reflexivity.
Qed.

Lemma setup_leaves_pins_at_one_witness :
  let b := bench_board 0 1 true DateTime_default in
  rtc_found b = true /\
  fst (setup b power_on) = Returned /\
  (forall g,
     last_write (pin_of g) (pwm (exec setup b power_on)) = Some 1 /\
     level g (exec setup b power_on) = level g power_on /\
     (level g power_on = 0 -> ~ in_sync g (exec setup b power_on))) /\
  length (pwm (exec setup b power_on)) = (length (pwm power_on) + 1533)%nat /\
  reads (exec setup b power_on) = reads power_on /\
  polls (exec setup b power_on) = polls power_on.
Proof.
  intros b. split; [ reflexivity | ].
  apply (setup_leaves_pins_at_one b power_on). reflexivity.
Defined.

(** X3. [setup] sets the clock chip to 2020-01-01 00:00:00 exactly when the
    chip answers but reports that it is not running; a running chip and a
    missing chip are never adjusted. *)
Theorem setup_adjusts_stopped_clock b s :
  (rtc_found b = true -> rtc_running b = false ->
   rtc_set (exec setup b s) = Some (mkDateTime 2020 1 1 0 0 0)) /\
  (rtc_found b = true -> rtc_running b = true ->
   rtc_set (exec setup b s) = rtc_set s) /\
  (rtc_found b = false -> rtc_set (exec setup b s) = rtc_set s).
Proof.
  unfold exec. split; [ | split ].
  - intros Hf Hr. rewrite (setup_found b s Hf), Hr. reflexivity.
  - intros Hf Hr. rewrite (setup_found b s Hf), Hr. reflexivity.
  - intros Hf. rewrite (setup_missing b s Hf). reflexivity.
Qed.

Lemma setup_adjusts_stopped_clock_witness :
  rtc_set (exec setup (mkBoard (fun _ => 0) true false (fun _ => DateTime_default))
                power_on) = Some (mkDateTime 2020 1 1 0 0 0) /\
  rtc_set (exec setup (mkBoard (fun _ => 0) true true (fun _ => DateTime_default))
                power_on) = None /\
  rtc_set (exec setup (mkBoard (fun _ => 0) false false (fun _ => DateTime_default))
                power_on) = None.
Proof.
  split; [ | split ].
  - apply (proj1 (setup_adjusts_stopped_clock
                    (mkBoard (fun _ => 0) true false (fun _ => DateTime_default))
                    power_on)); reflexivity.
  - apply (proj1 (proj2 (setup_adjusts_stopped_clock
                    (mkBoard (fun _ => 0) true true (fun _ => DateTime_default))
                    power_on))); reflexivity.
  - apply (proj2 (proj2 (setup_adjusts_stopped_clock
                    (mkBoard (fun _ => 0) false false (fun _ => DateTime_default))
                    power_on))); reflexivity.
Defined.

(** ** What one update leaves alone *)

Ltac frame_branch b s g T pin :=
  destruct (branch_cases b s g T);
  [ rewrite (updateMeter_idle b s g T pin) by assumption
  | rewrite (updateMeter_rise b s g T pin) by assumption
  | rewrite (updateMeter_clamp b s g T pin) by assumption
  | rewrite (updateMeter_step b s g T pin) by assumption
  | rewrite (updateMeter_hold b s g T pin) by assumption ];
  unfold armed; destruct (lastUpdate_init s), g; reflexivity.

Lemma updateMeter_polls b s g T pin :
  polls (exec (updateMeter g T pin) b s) = polls s.
Proof. frame_branch b s g T pin. Qed.

Lemma updateMeter_curTime b s g T pin :
  curTime (exec (updateMeter g T pin) b s) = curTime s.
Proof. frame_branch b s g T pin. Qed.

Lemma updateMeter_rtc_set b s g T pin :
  rtc_set (exec (updateMeter g T pin) b s) = rtc_set s.
Proof. frame_branch b s g T pin. Qed.

Lemma updateMeter_lastSecond b s g T pin :
  lastSecond (exec (updateMeter g T pin) b s) = lastSecond s.
Proof. frame_branch b s g T pin. Qed.

Lemma updateMeter_level_other b s g g' T pin :
  g' <> g -> level g' (exec (updateMeter g T pin) b s) = level g' s.
Proof.
  intros Hg.
  by_branch b s g T pin; rewrite ?level_set_level_other by assumption;
    autorewrite with needle; reflexivity.
Qed.

Lemma updateMeter_is_byte b s g T pin :
  is_byte (level g s) -> is_byte T ->
  is_byte (level g (exec (updateMeter g T pin) b s)).
Proof.
  unfold is_byte. intros Hc HT.
  by_branch b s g T pin; rewrite ?interval_value in *;
    try rewrite (to_byte_small (level g s - 34)) by lia; lia.
Qed.

(** The writes of one call: none at the target, one otherwise. *)
Lemma updateMeter_pwm b s g T pin :
  pwm (exec (updateMeter g T pin) b s) =
  pwm s ++ (if level g s =? T then []
            else [(pin, level g (exec (updateMeter g T pin) b s))]).
Proof.
  by_branch b s g T pin;
    (destruct (Z.eqb_spec (level g s) T); [ try lia | try lia ]);
    rewrite ?app_nil_r; reflexivity.
Qed.

(** ** One display cycle *)

Lemma exec_gets {A B} (f : state -> A) (k : A -> M B) b s :
  exec (x <- gets f ;; k x) b s = exec (k (f s)) b s.
Proof. reflexivity. Qed.

Lemma exec_millis {B} (k : Z -> M B) b s :
  exec (x <- millis ;; k x) b s =
  exec (k (to_ulong (clock b (reads s)))) b (set_reads (S (reads s)) s).
Proof. reflexivity. Qed.

(** [displayTime] is the three updates, run on the state and with the
    targets that one poll of the clock chip and one reading of [millis()]
    give. *)
Lemma displayTime_cycle b s :
  exec displayTime b s =
  exec (updateMeter HourGauge (target HourGauge b s) VU_HOUR_PIN) b
    (exec (updateMeter MinGauge (target MinGauge b s) VU_MIN_PIN) b
       (exec (updateMeter SecGauge (target SecGauge b s) VU_SEC_PIN) b
          (polled b s))).
Proof.
  unfold displayTime. rewrite exec_seq, exec_gets. cbv zeta.
  rewrite exec_millis, exec_gets, !exec_seq. unfold target, polled. cbv zeta.
  change (lastSecond (set_reads (S (reads (exec getRTCTime b s)))
                                (exec getRTCTime b s)))
    with (lastSecond (exec getRTCTime b s)).
  reflexivity.
Qed.

Lemma getRTCTime_level b s g : level g (exec getRTCTime b s) = level g s.
Proof.
  unfold exec. rewrite getRTCTime_result. cbn [snd]. cbv zeta.
  destruct (second (curTime s) <? second (rtc_time b (polls s))), g; reflexivity.
Qed.

Lemma getRTCTime_pwm b s : pwm (exec getRTCTime b s) = pwm s.
Proof.
  unfold exec. rewrite getRTCTime_result. cbn [snd]. cbv zeta.
  destruct (second (curTime s) <? second (rtc_time b (polls s))); reflexivity.
Qed.

Lemma polled_level b s g : level g (polled b s) = level g s.
Proof. unfold polled. cbv zeta. rewrite level_set_reads. apply getRTCTime_level. Qed.

Lemma polled_pwm b s : pwm (polled b s) = pwm s.
Proof. unfold polled. cbv zeta. apply getRTCTime_pwm. Qed.

Lemma target_is_byte g b s : is_byte (target g b s).
Proof.
  assert (H : forall z, is_byte (to_byte z)).
  { intros z. unfold is_byte, to_byte.
    pose proof (Z.mod_pos_bound z 256 ltac:(lia)). lia. }
  destruct g; unfold target, secLevel; cbv zeta; apply H.
Qed.

(** The level a meter has after the cycle is the one its own update left. *)
Lemma displayTime_level b s g :
  level g (exec displayTime b s) =
  level g (exec (updateMeter g (target g b s) (pin_of g)) b
             (match g with
              | SecGauge => polled b s
              | MinGauge =>
                  exec (updateMeter SecGauge (target SecGauge b s) VU_SEC_PIN) b
                       (polled b s)
              | HourGauge =>
                  exec (updateMeter MinGauge (target MinGauge b s) VU_MIN_PIN) b
                    (exec (updateMeter SecGauge (target SecGauge b s) VU_SEC_PIN) b
                       (polled b s))
              end)).
Proof.
  rewrite displayTime_cycle. destruct g; cbn [pin_of].
  - rewrite !updateMeter_level_other by discriminate. reflexivity.
  - rewrite updateMeter_level_other by discriminate. reflexivity.
  - reflexivity.
Qed.

(** The level a meter has when its own update starts is the one it had when
    the cycle started. *)
Lemma level_before_own_update b s g :
  level g (match g with
           | SecGauge => polled b s
           | MinGauge =>
               exec (updateMeter SecGauge (target SecGauge b s) VU_SEC_PIN) b
                    (polled b s)
           | HourGauge =>
               exec (updateMeter MinGauge (target MinGauge b s) VU_MIN_PIN) b
                 (exec (updateMeter SecGauge (target SecGauge b s) VU_SEC_PIN) b
                    (polled b s))
           end) = level g s.
Proof.
  destruct g; rewrite ?updateMeter_level_other by discriminate; apply polled_level.
Qed.

(** X4. One display cycle issues at most one write per meter, in the order
    second, minute, hour: a meter already at its target is not written, and a
    meter that is not receives one write, of the level it has when the cycle
    ends, on its own pin. *)
Theorem displayTime_writes b s :
  pwm (exec displayTime b s) =
  pwm s
  ++ (if level SecGauge s =? target SecGauge b s then []
      else [(VU_SEC_PIN, level SecGauge (exec displayTime b s))])
  ++ (if level MinGauge s =? target MinGauge b s then []
      else [(VU_MIN_PIN, level MinGauge (exec displayTime b s))])
  ++ (if level HourGauge s =? target HourGauge b s then []
      else [(VU_HOUR_PIN, level HourGauge (exec displayTime b s))]).
Proof.
  rewrite (displayTime_level b s SecGauge), (displayTime_level b s MinGauge),
          (displayTime_level b s HourGauge).
  rewrite displayTime_cycle. cbn [pin_of].
  rewrite updateMeter_pwm, updateMeter_pwm, updateMeter_pwm.
  rewrite (level_before_own_update b s HourGauge),
          (level_before_own_update b s MinGauge), polled_level, polled_pwm.
  rewrite <- !app_assoc. reflexivity.
Qed.

(** What a display cycle does to the last value on the pin of meter [g]. *)
Lemma displayTime_last_write b s g :
  last_write (pin_of g) (pwm (exec displayTime b s)) =
  if level g s =? target g b s
  then last_write (pin_of g) (pwm s)
  else Some (level g (exec displayTime b s)).
Proof.
  rewrite displayTime_writes.
  destruct g; cbn [pin_of];
    destruct (level SecGauge s =? target SecGauge b s);
    destruct (level MinGauge s =? target MinGauge b s);
    destruct (level HourGauge s =? target HourGauge b s);
    cbn [app]; rewrite last_write_app;
    unfold VU_SEC_PIN, VU_MIN_PIN, VU_HOUR_PIN;
    cbn [last_write Z.eqb Pos.eqb]; reflexivity.
Qed.

(** A meter already at its target keeps its level through the cycle. *)
Lemma displayTime_level_idle b s g :
  level g s = target g b s -> level g (exec displayTime b s) = level g s.
Proof.
  intros H. rewrite displayTime_level.
  rewrite updateMeter_idle by (rewrite level_before_own_update; exact H).
  rewrite level_armed. apply level_before_own_update.
Qed.

(** X5. A display cycle keeps every meter in sync with its pin, and brings a
    meter that is not at its target into sync whatever its pin carried
    before.  A meter that is at its target is not written, so a pin that
    differs from the level the program holds (as after the start-up sweep)
    stays as it is until the target moves. *)
Theorem displayTime_sync b s g :
  (in_sync g s -> in_sync g (exec displayTime b s)) /\
  (level g s <> target g b s -> in_sync g (exec displayTime b s)) /\
  (level g s = target g b s ->
   last_write (pin_of g) (pwm (exec displayTime b s)) =
   last_write (pin_of g) (pwm s) /\
   level g (exec displayTime b s) = level g s).
Proof.
  unfold in_sync. rewrite displayTime_last_write.
  destruct (Z.eqb_spec (level g s) (target g b s)) as [E | E].
  - split; [ | split ].
    + intros H. rewrite H, (displayTime_level_idle b s g E). reflexivity.
    + intros H. contradiction.
    + intros _. split; [ reflexivity | apply (displayTime_level_idle b s g E) ].
  - split; [ | split ].
    + reflexivity.
    + reflexivity.
    + intros H. contradiction.
Qed.

Lemma displayTime_sync_witness :
  let b := bench_board 500 1 true (mkDateTime 2020 1 1 0 0 30) in
  let s := exec setup b power_on in
  in_sync HourGauge (exec displayTime b s) /\
  last_write VU_MIN_PIN (pwm (exec displayTime b s)) = Some 1 /\
  level MinGauge (exec displayTime b s) = 0.
Proof.
  intros b s.
  destruct (displayTime_sync b s HourGauge) as [_ [Hh _]].
  destruct (displayTime_sync b s MinGauge) as [_ [_ Hm]].
  split; [ apply Hh; vm_compute; discriminate | ].
  destruct Hm as [Hw Hl]; [ vm_compute; reflexivity | ].
  change (pin_of MinGauge) with VU_MIN_PIN in Hw.
  split.
  - rewrite Hw. vm_compute. reflexivity.
  - rewrite Hl. vm_compute. reflexivity.
Defined.

(** ** The whole run *)

Lemma well_driven_frame s s' :
  pwm s' = pwm s -> (forall g, level g s' = level g s) ->
  well_driven s -> well_driven s'.
Proof.
  intros Hp Hl [Hw Hb]. split.
  - rewrite Hp. exact Hw.
  - intros g. rewrite Hl. apply Hb.
Qed.

Lemma well_driven_updateMeter b s g T :
  is_byte T -> well_driven s ->
  well_driven (exec (updateMeter g T (pin_of g)) b s).
Proof.
  intros HT [Hw Hb].
  assert (Hg : is_byte (level g (exec (updateMeter g T (pin_of g)) b s)))
    by (apply updateMeter_is_byte; [ apply Hb | exact HT ]).
  split.
  - rewrite updateMeter_pwm. apply Forall_app. split; [ exact Hw | ].
    destruct (level g s =? T); constructor; [ | constructor ].
    split; [ | exact Hg ].
    destruct g; cbn; tauto.
  - intros g'. destruct g, g'; try exact Hg;
      rewrite updateMeter_level_other by discriminate; apply Hb.
Qed.

Lemma well_driven_displayTime b s :
  well_driven s -> well_driven (exec displayTime b s).
Proof.
  intros H. rewrite displayTime_cycle.
  apply (well_driven_updateMeter b _ HourGauge); [ apply target_is_byte | ].
  apply (well_driven_updateMeter b _ MinGauge); [ apply target_is_byte | ].
  apply (well_driven_updateMeter b _ SecGauge); [ apply target_is_byte | ].
  apply (well_driven_frame s); [ apply polled_pwm | apply polled_level | exact H ].
Qed.

Lemma sweep_well_driven pin :
  In pin [VU_SEC_PIN; VU_MIN_PIN; VU_HOUR_PIN] ->
  Forall (fun w => In (fst w) [VU_SEC_PIN; VU_MIN_PIN; VU_HOUR_PIN] /\
                   is_byte (snd w)) (List.map (pair pin) sweep_values).
Proof.
  intros Hp. apply Forall_map. cbn [fst snd].
  eapply Forall_impl; [ | apply sweep_values_bytes ].
  intros v Hv. split; assumption.
Qed.

Lemma well_driven_setup b s :
  well_driven s -> well_driven (exec setup b s).
Proof.
  intros [Hw Hb]. unfold exec.
  destruct (rtc_found b) eqn:Hf.
  - rewrite (setup_found b s Hf). cbn [snd]. split.
    + rewrite pwm_set_pwm. repeat (apply Forall_app; split); try exact Hw;
        try (apply sweep_well_driven; cbn; tauto).
      repeat constructor; cbn; try tauto; unfold is_byte; lia.
    + intros g.
      destruct (rtc_running b), g;
        first [ exact (Hb SecGauge) | exact (Hb MinGauge) | exact (Hb HourGauge) ].
  - rewrite (setup_missing b s Hf). cbn [snd]. split.
    + rewrite pwm_set_pwm. apply Forall_app. split; [ exact Hw | ].
      repeat constructor; cbn; try tauto; unfold is_byte; lia.
    + intros g.
      destruct g;
        first [ exact (Hb SecGauge) | exact (Hb MinGauge) | exact (Hb HourGauge) ].
Qed.

Lemma well_driven_step b m :
  well_driven (mem m) -> well_driven (mem (step b m)).
Proof.
  intros H. unfold step. destruct (stage m).
  - pose proof (well_driven_setup b (mem m) H) as Hs. unfold exec in Hs.
    destruct (setup b (mem m)) as [[ | ] s']; exact Hs.
  - exact H.
  - apply well_driven_displayTime. exact H.
Qed.

(** X6. Whatever the board answers, also a clock chip that returns times out
    of range, and however long the program runs: every [analogWrite] it has
    issued went to one of the three meter pins with a value from 0 to 255,
    and the three levels it holds are in that range. *)
Theorem run_well_driven b n : well_driven (mem (run b n reset)).
Proof.
  assert (H : forall m, well_driven (mem m) -> well_driven (mem (run b n m))).
  { induction n as [ | n IH ]; intros m Hm; [ exact Hm | ].
    cbn [run]. apply IH. apply well_driven_step. exact Hm. }
  apply H. split.
  - constructor.
  - intros g. destruct g; cbn; unfold is_byte; lia.
Qed.

(** ** Polling *)

Lemma polled_polls b s : polls (polled b s) = S (polls s).
Proof.
  unfold polled, exec. rewrite getRTCTime_result. cbn [snd]. cbv zeta.
  destruct (second (curTime s) <? second (rtc_time b (polls s))); reflexivity.
Qed.

Lemma polled_curTime b s : curTime (polled b s) = rtc_time b (polls s).
Proof.
  unfold polled, exec. rewrite getRTCTime_result. cbn [snd]. cbv zeta.
  destruct (second (curTime s) <? second (rtc_time b (polls s))); reflexivity.
Qed.

Lemma displayTime_polls b s : polls (exec displayTime b s) = S (polls s).
Proof. rewrite displayTime_cycle, !updateMeter_polls. apply polled_polls. Qed.

Lemma displayTime_curTime b s :
  curTime (exec displayTime b s) = rtc_time b (polls s).
Proof. rewrite displayTime_cycle, !updateMeter_curTime. apply polled_curTime. Qed.

Lemma run_looping b n : forall m,
  stage m = Looping ->
  stage (run b n m) = Looping /\
  polls (mem (run b n m)) = (polls (mem m) + n)%nat.
Proof.
  induction n as [ | n IH ]; intros m Hm.
  - cbn [run]. split; [ exact Hm | lia ].
  - cbn [run].
    assert (Hs : step b m = mkMachine Looping (exec loop b (mem m)))
      by (unfold step; rewrite Hm; reflexivity).
    rewrite Hs. destruct (IH (mkMachine Looping (exec loop b (mem m))) eq_refl)
      as [H1 H2].
    split; [ exact H1 | ]. rewrite H2. cbn [mem]. unfold loop.
    rewrite displayTime_polls. lia.
Qed.

(** X7. With the clock chip present, the program polls it exactly once per
    display cycle and never during [setup]: after [setup] and [n] cycles it
    has taken [n] readings, and the time it holds after a cycle is the
    reading that cycle took. *)
Theorem one_poll_per_cycle b n :
  rtc_found b = true ->
  stage (run b (S n) reset) = Looping /\
  polls (mem (run b (S n) reset)) = n /\
  curTime (mem (run b (S (S n)) reset)) = rtc_time b n.
Proof.
  intros Hf.
  assert (Hs : step b reset =
               mkMachine Looping (exec setup b power_on)).
  { unfold step, exec. cbn [stage reset mem].
    rewrite (setup_found b power_on Hf). reflexivity. }
  assert (Hp : polls (exec setup b power_on) = 0%nat).
  { unfold exec. rewrite (setup_found b power_on Hf). cbn [snd].
    destruct (rtc_running b); reflexivity. }
  destruct (run_looping b n (mkMachine Looping (exec setup b power_on)) eq_refl)
    as [H1 H2].
  cbn [mem] in H2. rewrite Hp in H2.
  split; [ | split ].
  - cbn [run]. rewrite Hs. exact H1.
  - cbn [run]. rewrite Hs. exact H2.
  - assert (Hsn : forall k m, run b (S k) m = step b (run b k m)).
    { induction k as [ | k IH ]; intros m; [ reflexivity | ].
      change (run b (S (S k)) m) with (run b (S k) (step b m)).
      rewrite IH. reflexivity. }
    rewrite Hsn. change (run b (S n) reset) with (run b n (step b reset)).
    rewrite Hs. unfold step. rewrite H1. cbn [mem]. unfold loop.
    rewrite displayTime_curTime, H2. reflexivity.
Qed.

Lemma one_poll_per_cycle_witness :
  let b := bench_board 0 1 true (mkDateTime 2020 1 1 7 31 5) in
  rtc_found b = true /\
  stage (run b 4 reset) = Looping /\
  polls (mem (run b 4 reset)) = 3%nat /\
  curTime (mem (run b 5 reset)) = rtc_time b 3.
Proof.
  intros b. split; [ reflexivity | ].
  apply (one_poll_per_cycle b 3). reflexivity.
Defined.

(** ** The calibration tables and the hour index *)







(** X9. For every hour from 0 to 23 the index into the hour table is
    (hour + 11) mod 12: it always lies within the 12 entries, it is the same
    twelve hours later, and it is 11, the full-scale entry, at 0 and at 12
    o'clock. *)
Theorem hour_index_in_table h :
  0 <= h <= 23 ->
  hour12 h - 1 = (h + 11) mod 12 /\
  0 <= hour12 h - 1 < Z.of_nat (length hourVals) /\
  hour12 ((h + 12) mod 24) = hour12 h /\
  (pgm_read_byte hourVals (hour12 h - 1) = 255 <-> h = 0 \/ h = 12).
Proof.
  intros Hh.
  assert (H : h = 0 \/ h = 1 \/ h = 2 \/ h = 3 \/ h = 4 \/ h = 5 \/ h = 6 \/
              h = 7 \/ h = 8 \/ h = 9 \/ h = 10 \/ h = 11 \/ h = 12 \/
              h = 13 \/ h = 14 \/ h = 15 \/ h = 16 \/ h = 17 \/ h = 18 \/
              h = 19 \/ h = 20 \/ h = 21 \/ h = 22 \/ h = 23) by lia.
  repeat (destruct H as [H | H]; [ subst h;
    (split; [ reflexivity | split; [ cbn; lia | split; [ reflexivity | ] ] ]);
    (split; [ intros E; vm_compute in E; first [ discriminate E | lia ]
            | intros E; first [ reflexivity | lia ] ]) | ]).
  subst h.
  (split; [ reflexivity | split; [ cbn; lia | split; [ reflexivity | ] ] ]);
  (split; [ intros E; vm_compute in E; first [ discriminate E | lia ]
          | intros E; first [ reflexivity | lia ] ]).
Qed.

Lemma hour_index_in_table_witness :
  0 <= 13 <= 23 /\
  hour12 13 - 1 = (13 + 11) mod 12 /\
  0 <= hour12 13 - 1 < Z.of_nat (length hourVals) /\
  hour12 ((13 + 12) mod 24) = hour12 13 /\
  (pgm_read_byte hourVals (hour12 13 - 1) = 255 <-> 13 = 0 \/ 13 = 12).
Proof.
  split; [ lia | ].
  apply (hour_index_in_table 13). lia.
Defined.

(** ** The second hand beyond one minute, and across the rollover of millis() *)

Lemma to_byte_range z : 0 <= to_byte z <= 255.
Proof. unfold to_byte. pose proof (Z.mod_pos_bound z 256 ltac:(lia)). lia. Qed.

Lemma map_scaled e :
  0 <= e <= 8421504 -> map (to_long e) 0 60000 0 255 = e * 255 / 60000.
Proof.
  intros He. unfold map.
  assert (Hq : 0 <= e * 255 / 60000 <= 35792).
  { split.
    - apply Z.div_pos; lia.
    - apply Z.lt_succ_r. apply Z.div_lt_upper_bound; lia. }
  rewrite (to_long_small e) by lia.
  rewrite !Z.sub_0_r.
  rewrite (to_long_small e) by lia.
  rewrite (to_long_small 255) by lia.
  rewrite (to_long_small 60000) by lia.
  rewrite (to_long_small (e * 255)) by lia.
  rewrite Z.quot_div_nonneg by lia.
  rewrite Z.add_0_r.
  rewrite !(to_long_small (e * 255 / 60000)) by lia.
  reflexivity.
Qed.

(** X10. The second-hand level is (e * 255 / 60000) mod 256 for every
    millisecond count the 32-bit product can hold.  From 60000 ms to 60235 ms
    it is 255, and from 60236 ms on the conversion to [byte] wraps: the
    level is 0 again up to 60470 ms. *)
Theorem secLevel_wraps e :
  0 <= e <= 8421504 ->
  secLevel e = (e * 255 / 60000) mod 256 /\
  (60000 <= e <= 60235 -> secLevel e = 255) /\
  (60236 <= e <= 60470 -> secLevel e = 0).
Proof.
  intros He. unfold secLevel. rewrite (map_scaled e He). unfold to_byte.
  split; [ reflexivity | split ].
  - intros H. replace (e * 255 / 60000) with 255; [ reflexivity | ].
    apply Z.div_unique with (r := e * 255 - 255 * 60000); lia.
  - intros H. replace (e * 255 / 60000) with 256; [ reflexivity | ].
    apply Z.div_unique with (r := e * 255 - 256 * 60000); lia.
Qed.

Lemma secLevel_wraps_witness :
  0 <= 60236 <= 8421504 /\
  secLevel 60236 = (60236 * 255 / 60000) mod 256 /\
  (60000 <= 60236 <= 60235 -> secLevel 60236 = 255) /\
  (60236 <= 60236 <= 60470 -> secLevel 60236 = 0).
Proof.
  split; [ lia | ].
  apply (secLevel_wraps 60236). lia.
Defined.

(** X11. The second-hand target counts the time since the anchor correctly
    wherever the two readings of [millis()] lie with respect to the 32-bit
    rollover: with the anchor taken at time t and the present reading at
    t + d, the target in second [sec] is (sec * 1000 + d) * 255 / 60000, as
    long as that count stays below 60236 ms. *)
Theorem second_target_across_rollover sec t d :
  0 <= sec <= 59 -> 0 <= d -> sec * 1000 + d <= 60235 ->
  curSecMillis sec (to_ulong (t + d)) (to_ulong t) = sec * 1000 + d /\
  secLevel (curSecMillis sec (to_ulong (t + d)) (to_ulong t)) =
  (sec * 1000 + d) * 255 / 60000.
Proof.
  intros Hs Hd Hb.
  assert (E : curSecMillis sec (to_ulong (t + d)) (to_ulong t) = sec * 1000 + d).
  { unfold curSecMillis. rewrite to_ulong_sub_l, to_ulong_sub_r.
    replace (t + d - t) with d by lia.
    unfold to_ulong. rewrite (Z.mod_small (sec * 1000)) by lia.
    rewrite (Z.mod_small d) by lia. apply Z.mod_small. lia. }
  split; [ exact E | ].
  rewrite E. unfold secLevel. rewrite map_scaled by lia.
  apply to_byte_small. split.
  - apply Z.div_pos; lia.
  - apply Z.lt_succ_r. apply Z.div_lt_upper_bound; lia.
Qed.

Lemma second_target_across_rollover_witness :
  0 <= 30 <= 59 /\ 0 <= 500 /\ 30 * 1000 + 500 <= 60235 /\
  curSecMillis 30 (to_ulong (4294967000 + 500)) (to_ulong 4294967000) =
    30 * 1000 + 500 /\
  secLevel (curSecMillis 30 (to_ulong (4294967000 + 500)) (to_ulong 4294967000)) =
    (30 * 1000 + 500) * 255 / 60000.
Proof.
  split; [ lia | split; [ lia | split; [ lia | ] ] ].
  apply (second_target_across_rollover 30 4294967000 500); lia.
Defined.

(** ** The rate limit across the rollover of millis() *)

(** X12. The rate limit measures the time since the last step correctly
    across the 32-bit rollover of [millis()]: with the last step at time t
    and the present reading at t + d, a falling needle with a full step left
    goes down one step when d is more than 100 ms and stays when d is 100 ms
    or less. *)
Theorem rate_limit_across_rollover b s g T pin t d :
  lastUpdate_init s = true ->
  lastUpdate s = to_ulong t ->
  clock b (reads s) = t + d ->
  0 <= d < 2 ^ 32 ->
  T < level g s -> interval <= level g s <= 255 ->
  elapsed b s = d /\
  (updateInterval < d ->
   level g (exec (updateMeter g T pin) b s) = level g s - interval) /\
  (d <= updateInterval ->
   level g (exec (updateMeter g T pin) b s) = level g s).
Proof.
  intros Hi Hl Hc Hd HT Hlev.
  assert (E : elapsed b s = d).
  { unfold elapsed. rewrite (armed_ready b s Hi), Hl, Hc.
    rewrite to_ulong_sub_l, to_ulong_sub_r.
    replace (t + d - t) with d by lia.
    unfold to_ulong. apply Z.mod_small. exact Hd. }
  split; [ exact E | split ].
  - intros H. rewrite (updateMeter_step b s g T pin) by lia.
    autorewrite with needle. apply to_byte_small.
    rewrite interval_value in *. lia.
  - intros H. rewrite (updateMeter_hold b s g T pin) by lia.
    autorewrite with needle. reflexivity.
Qed.

Lemma rate_limit_across_rollover_witness :
  let b := mkBoard (fun _ => 4294967246 + 101) true true (fun _ => DateTime_default) in
  let s := needle_at MinGauge 100 4294967246 in
  elapsed b s = 101 /\
  level MinGauge (exec (updateMeter MinGauge 0 VU_MIN_PIN) b s) = 100 - interval.
Proof.
  intros b s.
  assert (Hd : 0 <= 101 < 2 ^ 32) by lia.
  assert (HT : 0 < level MinGauge s) by (vm_compute; reflexivity).
  assert (Hl : interval <= level MinGauge s <= 255)
    by (vm_compute; split; discriminate).
  destruct (rate_limit_across_rollover b s MinGauge 0 VU_MIN_PIN 4294967246 101
              eq_refl eq_refl eq_refl Hd HT Hl) as [He [Hs _]].
  split; [ exact He | ].
  apply Hs. reflexivity.
Defined.

(** ** Runs of updates: rest, arrival, the sweep to 0 *)

Section Runs.

Variables (b : board) (g : gauge) (T pin : Z).

Lemma updates_add n : forall m s,
  updates (n + m) g T pin b s = updates m g T pin b (updates n g T pin b s).
Proof.
  induction n as [ | n IH ]; intros m s; [ reflexivity | ].
  cbn [Nat.add updates]. apply IH.
Qed.

Lemma at_rest n : forall s,
  level g s = T ->
  level g (updates n g T pin b s) = T /\
  pwm (updates n g T pin b s) = pwm s.
Proof.
  induction n as [ | n IH ]; intros s H; [ split; [ exact H | reflexivity ] | ].
  cbn [updates]. rewrite (updateMeter_idle b s g T pin H).
  destruct (IH (armed b s)) as [Hl Hp]; [ now rewrite level_armed | ].
  split; [ exact Hl | ]. rewrite Hp. apply pwm_armed.
Qed.

Lemma lowered_is_byte c : 0 <= c <= 255 -> 0 <= lowered c <= 255.
Proof.
  intros H. unfold lowered. rewrite interval_value.
  destruct (Z.ltb_spec c 34); lia.
Qed.

Lemma sweep_to_zero n : forall s,
  T = 0 -> 0 <= level g s <= 255 -> spaced n b s g T pin ->
  level g (updates n g T pin b s) = Z.max 0 (level g s - interval * Z.of_nat n).
Proof.
  induction n as [ | n IH ]; intros s HT Hc Hp.
  - cbn [updates]. lia.
  - destruct (spaced_tail b g T pin n s Hp) as [He Hp'].
    cbn [updates].
    destruct (Z.eq_dec (level g s) 0) as [H0 | H0].
    + rewrite IH; try assumption.
      * rewrite (updateMeter_idle b s g T pin) by lia.
        rewrite level_armed, interval_value. lia.
      * rewrite (updateMeter_idle b s g T pin) by lia.
        rewrite level_armed. lia.
    + pose proof (one_fall b g T pin s He ltac:(lia) Hc) as Hl.
      rewrite IH; try assumption.
      * rewrite Hl. unfold lowered. rewrite interval_value.
        destruct (Z.ltb_spec (level g s) 34); lia.
      * rewrite Hl. apply lowered_is_byte. exact Hc.
Qed.

Lemma arrival s :
  0 <= level g s <= 255 -> 0 <= T <= 255 -> spaced 8 b s g T pin ->
  exists k, (k <= 9)%nat /\ level g (updates k g T pin b s) = T.
Proof.
  intros Hc HT Hp.
  destruct (Z_dec (level g s) T) as [[Hlt | Hgt] | Heq].
  - exists 1%nat. split; [ lia | ]. cbn [updates].
    apply settle_at_target. lia.
  - destruct (descent b g T pin 8 s Hp) as [k [Hk [_ Hend]]]; try lia.
    { rewrite interval_value. lia. }
    exists (S k). split; [ lia | ].
    rewrite updates_snoc. apply settle_at_target. lia.
  - exists 0%nat. split; [ lia | exact Heq ].
Qed.

End Runs.

(** X13. Once a meter is at its target, any number of further updates with
    the same target leaves the level where it is and writes nothing; once
    the static time stamp has been initialised they leave the whole state
    as it is, [millis()] is not even read. *)
Theorem steady_state_is_silent b s g T pin n :
  level g s = T ->
  level g (updates n g T pin b s) = T /\
  pwm (updates n g T pin b s) = pwm s /\
  (lastUpdate_init s = true -> updates n g T pin b s = s).
Proof.
  intros H. destruct (at_rest b g T pin n s H) as [Hl Hp].
  split; [ exact Hl | split; [ exact Hp | ] ].
  intros Hi. clear Hl Hp. induction n as [ | n IH ]; [ reflexivity | ].
  cbn [updates]. rewrite (updateMeter_idle b s g T pin H).
  rewrite (armed_ready b s Hi). exact IH.
Qed.

Lemma steady_state_is_silent_witness :
  let b := bench_board 0 1 true DateTime_default in
  let s := needle_at MinGauge 66 0 in
  level MinGauge (updates 5 MinGauge 66 VU_MIN_PIN b s) = 66 /\
  pwm (updates 5 MinGauge 66 VU_MIN_PIN b s) = [] /\
  updates 5 MinGauge 66 VU_MIN_PIN b s = s.
Proof.
  intros b s.
  destruct (steady_state_is_silent b s MinGauge 66 VU_MIN_PIN 5 eq_refl)
    as [Hl [Hp Hs]].
  split; [ exact Hl | split; [ exact Hp | apply Hs; reflexivity ] ].
Defined.

(** X14. Whatever the level and the target, both from 0 to 255: when the
    first 8 calls each find the rate limit passed, the level equals the
    target after 9 updates and after any larger number of them. *)
Theorem updates_arrive b s g T pin n :
  is_byte (level g s) -> is_byte T -> spaced 8 b s g T pin ->
  (9 <= n)%nat ->
  level g (updates n g T pin b s) = T.
Proof.
  intros Hc HT Hp Hn.
  destruct (arrival b g T pin s Hc HT Hp) as [k [Hk Hl]].
  replace n with (k + (n - k))%nat by lia.
  rewrite updates_add. apply at_rest. exact Hl.
Qed.

Lemma updates_arrive_witness :
  let b := bench_board 1000 1000 true DateTime_default in
  let s := needle_at MinGauge 251 0 in
  level MinGauge (updates 12 MinGauge 90 VU_MIN_PIN b s) = 90.
Proof.
  intros b s.
  apply (updates_arrive b s MinGauge 90 VU_MIN_PIN 12).
  - vm_compute. split; discriminate.
  - vm_compute. split; discriminate.
  - apply paced_spaced. apply bench_board_paced. vm_compute. reflexivity.
  - lia.
Defined.

(** X15. The sweep to 0 is linear: when each of the first n calls finds the
    rate limit passed, a needle that started at level c stands at
    max(0, c - 34 * n) after n updates towards 0.  A full-scale needle needs
    8 steps, the last one from 17 to 0. *)
Theorem sweep_to_zero_linear b s g pin n :
  is_byte (level g s) -> spaced n b s g 0 pin ->
  level g (updates n g 0 pin b s) = Z.max 0 (level g s - interval * Z.of_nat n) /\
  (level g s = 255 ->
   (level g (updates n g 0 pin b s) = 0 <-> (8 <= n)%nat)).
Proof.
  intros Hc Hp.
  pose proof (sweep_to_zero b g 0 pin n s eq_refl Hc Hp) as H.
  split; [ exact H | ].
  intros E. rewrite H, E, interval_value. lia.
Qed.

Lemma sweep_to_zero_linear_witness :
  let b := bench_board 1000 1000 true DateTime_default in
  let s := needle_at HourGauge 255 0 in
  level HourGauge (updates 7 HourGauge 0 VU_HOUR_PIN b s) =
    Z.max 0 (255 - interval * 7) /\
  (level HourGauge s = 255 ->
   (level HourGauge (updates 7 HourGauge 0 VU_HOUR_PIN b s) = 0 <-> (8 <= 7)%nat)).
Proof.
  intros b s.
  apply (sweep_to_zero_linear b s HourGauge VU_HOUR_PIN 7).
  - vm_compute. split; discriminate.
  - intros i Hi.
    do 7 (destruct i as [ | i ]; [ vm_compute; reflexivity | ]). lia.
Defined.

(** ** Two meters falling in the same cycle *)

(** X16. When two meters are both a full step or more above their targets
    and are updated one after the other within the rate-limit interval, only
    the first goes down: its step renews the time stamp the second is
    measured against, so the second waits. *)
Theorem second_meter_waits b s g1 g2 T1 T2 p1 p2 :
  g2 <> g1 ->
  T1 < level g1 s -> interval <= level g1 s <= 255 ->
  T2 < level g2 s -> interval <= level g2 s ->
  updateInterval < elapsed b s ->
  to_ulong (clock b (S (S (reads (armed b s)))) -
            clock b (S (reads (armed b s)))) <= updateInterval ->
  level g1 (exec (updateMeter g1 T1 p1) b s) = level g1 s - interval /\
  level g2 (exec (updateMeter g2 T2 p2) b (exec (updateMeter g1 T1 p1) b s)) =
  level g2 s.
Proof.
  intros Hg H1 H1' H2 H2' He Hgap.
  assert (Hl2 : level g2 (exec (updateMeter g1 T1 p1) b s) = level g2 s)
    by (apply updateMeter_level_other; exact Hg).
  assert (Hs : exec (updateMeter g1 T1 p1) b s =
               set_pwm (pwm s ++ [(p1, to_byte (level g1 s - interval))])
                 (set_lastUpdate (to_ulong (clock b (S (reads (armed b s)))))
                    (set_reads (S (S (reads (armed b s))))
                       (set_level g1 (to_byte (level g1 s - interval)) (armed b s)))))
    by (apply updateMeter_step; [ exact H1 | lia | exact He ]).
  split.
  - rewrite Hs. autorewrite with needle. apply to_byte_small.
    rewrite interval_value in *. lia.
  - assert (He' : elapsed b (exec (updateMeter g1 T1 p1) b s) <= updateInterval).
    { rewrite Hs. unfold elapsed.
      rewrite armed_ready by (destruct g1; reflexivity).
      replace (reads (set_pwm (pwm s ++ [(p1, to_byte (level g1 s - interval))])
                 (set_lastUpdate (to_ulong (clock b (S (reads (armed b s)))))
                    (set_reads (S (S (reads (armed b s))))
                       (set_level g1 (to_byte (level g1 s - interval)) (armed b s))))))
        with (S (S (reads (armed b s)))) by (destruct g1; reflexivity).
      replace (lastUpdate (set_pwm (pwm s ++ [(p1, to_byte (level g1 s - interval))])
                 (set_lastUpdate (to_ulong (clock b (S (reads (armed b s)))))
                    (set_reads (S (S (reads (armed b s))))
                       (set_level g1 (to_byte (level g1 s - interval)) (armed b s))))))
        with (to_ulong (clock b (S (reads (armed b s))))) by (destruct g1; reflexivity).
      rewrite to_ulong_sub_l, to_ulong_sub_r. exact Hgap. }
    rewrite (updateMeter_hold b _ g2 T2 p2) by (rewrite ?Hl2; assumption).
    autorewrite with needle. exact Hl2.
Qed.

Lemma second_meter_waits_witness :
  let b := bench_board 200 1 true DateTime_default in
  let s := set_level SecGauge 254 (needle_at MinGauge 251 0) in
  level SecGauge (exec (updateMeter SecGauge 4 VU_SEC_PIN) b s) = 254 - interval /\
  level MinGauge (exec (updateMeter MinGauge 0 VU_MIN_PIN) b
                    (exec (updateMeter SecGauge 4 VU_SEC_PIN) b s)) = 251.
Proof.
  intros b s.
  assert (Hg : MinGauge <> SecGauge) by discriminate.
  assert (H1 : 4 < level SecGauge s) by (vm_compute; reflexivity).
  assert (H1' : interval <= level SecGauge s <= 255)
    by (vm_compute; split; discriminate).
  assert (H2 : 0 < level MinGauge s) by (vm_compute; reflexivity).
  assert (H2' : interval <= level MinGauge s) by (vm_compute; discriminate).
  assert (He : updateInterval < elapsed b s) by (vm_compute; reflexivity).
  assert (Hgap : to_ulong (clock b (S (S (reads (armed b s)))) -
                           clock b (S (reads (armed b s)))) <= updateInterval)
    by (vm_compute; discriminate).
  exact (second_meter_waits b s SecGauge MinGauge 4 0 VU_SEC_PIN VU_MIN_PIN
           Hg H1 H1' H2 H2' He Hgap).
Defined.
